(** * express-forms-and-data: users storage, validation, controller and router

    A shallow embedding of
      - [storages/usersStorage.js]   (class [usersStorage]),
      - [controller/usersController.js] ([validateUser] and the handlers),
      - [routes/usersRouter.js]      (both revisions found in the sources),
    together with the theorems that relate them to the specification.
    The controller is embedded as [controller/usersController.js] has it;
    the earlier snapshot that validates the two names only is not embedded.

    Conventions.
    - A JavaScript string is a sequence of UTF-16 code units; it is modelled
      by [string], one [ascii] per code unit, which covers the code units
      U+0000..U+00FF.
    - [this.storage] is an ordinary object used as a dictionary.  Its own
      properties are a [gmap] from property keys to records; the properties
      it inherits from its prototype chain are modelled separately, because
      [this.storage[id]] reads them as well.
    - [this.id] is a JavaScript number used as a counter; it is modelled by
      [N] (increments of a number are exact below 2^53). *)

From stdpp Require Import base strings list gmap pretty.
From Stdlib Require Import Ascii String NArith ZArith Lia Sorted.

Local Open Scope string_scope.
Local Open Scope N_scope.

(* ===================================================================== *)
(** ** JavaScript strings *)
(* ===================================================================== *)

Module JsString.

Definition code (c : ascii) : N := N_of_ascii c.

(** WhiteSpace and LineTerminator code units (the class [\s], which is also
    what [String.prototype.trim] strips): TAB, LF, VT, FF, CR, SP, NBSP. *)
Definition isWhiteSpace (c : ascii) : bool :=
  let n := code c in
  ((9 <=? n) && (n <=? 13)) || (n =? 32) || (n =? 160).

Definition isDigit (c : ascii) : bool :=
  let n := code c in (48 <=? n) && (n <=? 57).

(** [A-Z] under the [i] flag: the ASCII letters of both cases. *)
Definition isAsciiLetter (c : ascii) : bool :=
  let n := code c in
  ((65 <=? n) && (n <=? 90)) || ((97 <=? n) && (n <=? 122)).

Fixpoint trimStart (s : string) : string :=
  match s with
  | EmptyString => EmptyString
  | String c s' => if isWhiteSpace c then trimStart s' else s
  end.

Fixpoint trimEnd (s : string) : string :=
  match s with
  | EmptyString => EmptyString
  | String c s' =>
      match trimEnd s' with
      | EmptyString => if isWhiteSpace c then EmptyString else String c EmptyString
      | t => String c t
      end
  end.

(** [s.trim()] *)
Definition trim (s : string) : string := trimEnd (trimStart s).

(** Lower-case mapping of one code unit: A-Z, and the Latin-1 capitals
    U+00C0..U+00DE except the multiplication sign U+00D7. *)
Definition lowerChar (c : ascii) : ascii :=
  let n := code c in
  if ((65 <=? n) && (n <=? 90))
     || ((192 <=? n) && (n <=? 222) && negb (n =? 215))
  then ascii_of_N (n + 32) else c.

(** [s.toLowerCase()] *)
Fixpoint toLowerCase (s : string) : string :=
  match s with
  | EmptyString => EmptyString
  | String c s' => String (lowerChar c) (toLowerCase s')
  end.

(** [hay.startsWith(needle)] *)
Fixpoint startsWith (needle hay : string) : bool :=
  match needle, hay with
  | EmptyString, _ => true
  | String _ _, EmptyString => false
  | String a n', String b h' => bool_decide (a = b) && startsWith n' h'
  end.

(** [hay.includes(needle)]: some suffix of [hay] starts with [needle]. *)
Fixpoint includes (hay needle : string) : bool :=
  startsWith needle hay ||
  match hay with
  | EmptyString => false
  | String _ h' => includes h' needle
  end.

Fixpoint forallb_string (p : ascii -> bool) (s : string) : bool :=
  match s with
  | EmptyString => true
  | String c s' => p c && forallb_string p s'
  end.

Fixpoint existsb_string (p : ascii -> bool) (s : string) : bool :=
  match s with
  | EmptyString => false
  | String c s' => p c || existsb_string p s'
  end.

(** Value of a run of leading decimal digits, most significant first;
    [None] when the string does not start with a digit. *)
Fixpoint digitsPrefix (acc : option Z) (s : string) : option Z :=
  match s with
  | EmptyString => acc
  | String c s' =>
      if isDigit c
      then digitsPrefix
             (Some (10 * default 0%Z acc + Z.of_N (code c - 48))%Z) s'
      else acc
  end.

(** [parseInt(s, 10)]: skip leading white space, read an optional sign and
    the longest run of digits; [None] stands for NaN. *)
Definition parseInt (s : string) : option Z :=
  match trimStart s with
  | String "-" r => Z.opp <$> digitsPrefix None r
  | String "+" r => digitsPrefix None r
  | r => digitsPrefix None r
  end.

End JsString.

(* ===================================================================== *)
(** ** storages/usersStorage.js *)
(* ===================================================================== *)

Module UsersStorage.

(** The values that reach the [id] parameters: the counter (a number), a
    route parameter (a string), or [undefined] when the route has no
    [:id] segment. *)
Inductive jsid :=
| IdUndefined
| IdNumber (n : N)
| IdString (s : string).

(** ToPropertyKey: [obj[id]] converts [id] to a string; a counter value
    converts to its decimal numeral. *)
Definition propertyKey (i : jsid) : string :=
  match i with
  | IdUndefined => "undefined"
  | IdNumber n => pretty n
  | IdString s => s
  end.

(** The destructured argument [{ firstName, lastName, email, age, bio }];
    [None] is [undefined]. *)
Record userData := UserData {
  firstName : string;
  lastName : string;
  email : string;
  age : option Z;
  bio : option string
}.

(** The stored object [{ id, firstName, lastName, email, age, bio }]. *)
Record user := User {
  user_id : jsid;
  user_data : userData
}.

(** What a property read on [this.storage] can evaluate to. *)
Inductive jsval :=
| JUndefined
| JNumber (z : Z)
| JString (s : string)
| JUser (u : user)
| JBuiltin (name : string).

Definition jsval_of_id (i : jsid) : jsval :=
  match i with
  | IdUndefined => JUndefined
  | IdNumber n => JNumber (Z.of_N n)
  | IdString s => JString s
  end.

Definition jsval_of_opt {A} (f : A -> jsval) (o : option A) : jsval :=
  match o with Some a => f a | None => JUndefined end.

(** Own properties of a stored record object. *)
Definition userField (u : user) (k : string) : option jsval :=
  if decide (k = "id") then Some (jsval_of_id (user_id u))
  else if decide (k = "firstName") then Some (JString (firstName (user_data u)))
  else if decide (k = "lastName") then Some (JString (lastName (user_data u)))
  else if decide (k = "email") then Some (JString (email (user_data u)))
  else if decide (k = "age") then Some (jsval_of_opt JNumber (age (user_data u)))
  else if decide (k = "bio") then Some (jsval_of_opt JString (bio (user_data u)))
  else None.

(** The members of [Object.prototype], which every object literal
    inherits; its accessor [__proto__] is treated in [inherited] and
    [writeProperty]. *)
Definition objectPrototypeKeys : list string :=
  [ "constructor"; "hasOwnProperty"; "isPrototypeOf"; "propertyIsEnumerable";
    "toLocaleString"; "toString"; "valueOf";
    "__defineGetter__"; "__defineSetter__"; "__lookupGetter__"; "__lookupSetter__" ].

(** The class instance.  [this_storage] holds the own properties of
    [this.storage]; [storage_proto] is [None] while the prototype of
    [this.storage] is [Object.prototype], and [Some r] once the assignment
    [this.storage['__proto__'] = r] has replaced it by the record [r]. *)
Record store := Store {
  this_storage : gmap string user;
  storage_proto : option user;
  this_id : N
}.

(** [constructor()]: [this.storage = {}; this.id = 0]. *)
Definition constructor : store :=
  {| this_storage := ∅; storage_proto := None; this_id := 0 |}.

(** A read of [k] that finds no own property continues along the prototype
    chain: the accessor [__proto__] yields the prototype itself, a record
    installed as prototype contributes its fields, and [Object.prototype]
    its members. *)
Definition inherited (s : store) (k : string) : jsval :=
  if decide (k = "__proto__") then
    match storage_proto s with
    | Some r => JUser r
    | None => JBuiltin "Object.prototype"
    end
  else
    match storage_proto s ≫= (fun r => userField r k) with
    | Some v => v
    | None => if decide (k ∈ objectPrototypeKeys) then JBuiltin k else JUndefined
    end.

(** [this.storage[k]] *)
Definition readProperty (s : store) (k : string) : jsval :=
  match this_storage s !! k with
  | Some u => JUser u
  | None => inherited s k
  end.

(** [this.storage[k] = u]: an assignment to [__proto__] that finds no own
    property of that name reaches the inherited setter, which replaces the
    prototype; every other assignment creates or overwrites an own
    property. *)
Definition writeProperty (s : store) (k : string) (u : user) : store :=
  if decide (k = "__proto__" /\ this_storage s !! k = None)
  then {| this_storage := this_storage s; storage_proto := Some u; this_id := this_id s |}
  else {| this_storage := <[k := u]> (this_storage s);
          storage_proto := storage_proto s; this_id := this_id s |}.

(** [addUser({...})]: returns nothing; the id it used is [this_id] before
    the call. *)
Definition addUser (s : store) (d : userData) : store :=
  let id := this_id s in
  let s' := writeProperty s (propertyKey (IdNumber id)) (User (IdNumber id) d) in
  {| this_storage := this_storage s'; storage_proto := storage_proto s';
     this_id := this_id s' + 1 |}.

(** [getUsers()]: [Object.values(this.storage)], the values of the own
    properties.  The enumeration order of the model is that of the map. *)
Definition getUsers (s : store) : list user :=
  (map_to_list (this_storage s)).*2.

(** [getUser(id)] *)
Definition getUser (s : store) (id : jsid) : jsval :=
  readProperty s (propertyKey id).

(** [updateUser(id, {...})] *)
Definition updateUser (s : store) (id : jsid) (d : userData) : store :=
  writeProperty s (propertyKey id) (User id d).

(** [deleteUser(id)]: [delete this.storage[id]] removes an own property. *)
Definition deleteUser (s : store) (id : jsid) : store :=
  {| this_storage := delete (propertyKey id) (this_storage s);
     storage_proto := storage_proto s; this_id := this_id s |}.

End UsersStorage.

(* ===================================================================== *)
(** ** controller/usersController.js *)
(* ===================================================================== *)

Module UsersController.
Import JsString UsersStorage.

(** [req.body] as parsed from a URL-encoded form in which every field
    occurs at most once and without brackets, as the forms of the
    application submit it: every field is a string or missing.  Repeated or
    bracketed fields, which the parser turns into arrays or objects, are not
    part of this type. *)
Record body := Body {
  body_firstName : option string;
  body_lastName : option string;
  body_email : option string;
  body_age : option string;
  body_bio : option string
}.

(** An element of [validationResult(req).array()]: the field it is about
    and the message given by [withMessage]. *)
Record validationError := ValidationError {
  path : string;
  msg : string
}.

(** The locals handed to [res.render], keys [title], [users], [user],
    [errors] and [message]; a missing key is [None]. *)
Record viewModel := ViewModel {
  vm_title : string;
  vm_users : option (list user);
  vm_user : option jsval;
  vm_errors : option (list validationError);
  vm_message : option string
}.

Inductive response :=
| Render (status : N) (view : string) (locals : viewModel)
| Redirect (status : N) (location : string).

(** A handler either sends a response or throws. *)
Inductive outcome :=
| Sent (r : response)
| Thrown (e : string).

Definition alphaErr : string := "must only contain letters.".
Definition lengthErr : string := "must be between 1 and 10 characters.".
Definition emailErr : string := "Must be an email".
Definition ageErr : string := "Must be a number between 18 and 200".
Definition bioErr : string := "Must be below 200 characters".

(** The validators and sanitizers of the validation chains. *)

(** A missing field reads as the empty string. *)
Definition toString (v : option string) : string := default "" v.

(** [isAlpha()]: [/^[A-Z]+$/i]. *)
Definition isAlpha (s : string) : bool :=
  negb (bool_decide (s = "")) && forallb_string isAsciiLetter s.

(** [isLength({ min, max })]; [min] defaults to 0, [max] to none. *)
Definition isLength (min : N) (max : option N) (s : string) : bool :=
  let len := N.of_nat (String.length s) in
  (min <=? len) && match max with Some m => len <=? m | None => true end.

(** [toInt()] followed by [isInt({ min, max })]: the number read by
    [parseInt] is an integer within the bounds; NaN is not. *)
Definition isInt (min max : Z) (v : option Z) : bool :=
  match v with
  | Some n => ((min <=? n) && (n <=? max))%Z
  | None => false
  end.

Definition check (ok : bool) (p m : string) : list validationError :=
  if ok then [] else [ValidationError p m].

Section WithValidatorJs.
(** [isEmail] of validator.js, which is not part of this repository. *)
Variable isEmail : string -> bool.

(** [body(p).trim().isAlpha().withMessage(..).isLength({min:1,max:10}).withMessage(..)] *)
Definition nameChain (p label : string) (v : option string) : list validationError :=
  let s := trim (toString v) in
  check (isAlpha s) p (label +:+ " " +:+ alphaErr)
  ++ check (isLength 1 (Some 10) s) p (label +:+ " " +:+ lengthErr).

(** [body('email').trim().isEmail().withMessage(..)] *)
Definition emailChain (v : option string) : list validationError :=
  check (isEmail (trim (toString v))) "email" ("Email " +:+ emailErr).

(** [body('age').optional().trim().toInt().isInt({min:18,max:200}).withMessage(..)] *)
Definition ageChain (v : option string) : list validationError :=
  match v with
  | None => []
  | Some a => check (isInt 18 200 (parseInt (trim a))) "age" ("Age " +:+ ageErr)
  end.

(** [body('bio').optional().trim().isLength({max:200}).withMessage(..)] *)
Definition bioChain (v : option string) : list validationError :=
  match v with
  | None => []
  | Some b => check (isLength 0 (Some 200) (trim b)) "bio" ("Bio " +:+ bioErr)
  end.

(** [validateUser] run on a request, followed by
    [validationResult(req).array()]: all chains run, in order. *)
Definition validateUser (b : body) : list validationError :=
  nameChain "firstName" "First name" (body_firstName b)
  ++ nameChain "lastName" "Last name" (body_lastName b)
  ++ emailChain (body_email b)
  ++ ageChain (body_age b)
  ++ bioChain (body_bio b).

(** [const { firstName, lastName, email, age, bio } = req.body] after the
    sanitizers have rewritten the body.  It is read only when no error
    was recorded, so [age] is then a number or [undefined]. *)
Definition validatedBody (b : body) : userData :=
  {| firstName := trim (toString (body_firstName b));
     lastName := trim (toString (body_lastName b));
     email := trim (toString (body_email b));
     age := body_age b ≫= (fun a => parseInt (trim a));
     bio := trim <$> body_bio b |}.

Definition usersListGet (s : store) : outcome * store :=
  (Sent (Render 200 "index"
           {| vm_title := "User list"; vm_users := Some (getUsers s); vm_user := None;
              vm_errors := None; vm_message := None |}), s).

Definition usersCreateGet (s : store) : outcome * store :=
  (Sent (Render 200 "createUser"
           {| vm_title := "Create user"; vm_users := None; vm_user := None;
              vm_errors := None; vm_message := None |}), s).

Definition usersCreatePost (s : store) (b : body) : outcome * store :=
  let errs := validateUser b in
  if negb (bool_decide (errs = [])) then
    (Sent (Render 400 "createUser"
             {| vm_title := "Create user"; vm_users := None; vm_user := None;
                vm_errors := Some errs; vm_message := None |}), s)
  else
    (Sent (Redirect 302 "/"), addUser s (validatedBody b)).

Definition usersUpdateGet (s : store) (id : jsid) : outcome * store :=
  let u := getUser s id in
  (Sent (Render 200 "updateUser"
           {| vm_title := "Update user"; vm_users := None; vm_user := Some u;
              vm_errors := None; vm_message := None |}), s).

Definition usersUpdatePost (s : store) (id : jsid) (b : body) : outcome * store :=
  let u := getUser s id in
  let errs := validateUser b in
  if negb (bool_decide (errs = [])) then
    (Sent (Render 400 "updateUser"
             {| vm_title := "Update user"; vm_users := None; vm_user := Some u;
                vm_errors := Some errs; vm_message := None |}), s)
  else
    (Sent (Redirect 302 "/"), updateUser s id (validatedBody b)).

(** The predicate passed to [users.filter]. *)
Definition matchesTerm (searchTerm : string) (u : user) : bool :=
  includes (toLowerCase (firstName (user_data u))) searchTerm
  || includes (toLowerCase (lastName (user_data u))) searchTerm.

(** [req.query.name] is [None] when the query string has no [name];
    calling [.trim()] on [undefined] throws a TypeError. *)
Definition userSearchGet (s : store) (name : option string) : outcome * store :=
  match name with
  | None =>
      (Thrown "TypeError: Cannot read properties of undefined (reading 'trim')", s)
  | Some q =>
      let searchTerm := toLowerCase (trim q) in
      let results := List.filter (matchesTerm searchTerm) (getUsers s) in
      if (0 <? List.length results)%nat then
        (Sent (Render 200 "searchResults"
                 {| vm_title := "Search results"; vm_users := Some results; vm_user := None;
                    vm_errors := None; vm_message := None |}), s)
      else
        (Sent (Render 404 "searchResults"
                 {| vm_title := "Search results"; vm_users := Some []; vm_user := None;
                    vm_errors := None; vm_message := Some "404 - No users found." |}), s)
  end.

Definition userDeletePost (s : store) (id : jsid) : outcome * store :=
  (Sent (Redirect 302 "/"), deleteUser s id).

End WithValidatorJs.

End UsersController.

(* ===================================================================== *)
(** ** routes/usersRouter.js *)
(* ===================================================================== *)

Module UsersRouter.
Import JsString UsersStorage UsersController.

Inductive method := GET | POST.

(** A path pattern is a sequence of segments: a literal or a named
    parameter such as [:id]. *)
Inductive segment :=
| Lit (s : string)
| Param (name : string).

(** The members exported by the controller. *)
Inductive handler :=
| UsersListGet
| UsersCreateGet
| UsersCreatePost
| UsersUpdateGet
| UsersUpdatePost
| UserSearchGet
| UserDeletePost.

(** One registration [usersRouter.METHOD(path, ...callbacks)]. *)
Record route := Route {
  route_method : method;
  route_path : list segment;
  route_stack : list handler
}.

(** A request: its method, the decoded non-empty segments of its path,
    [req.query.name] and [req.body].  The query parameter [name] is a string
    or missing; a repeated [name], which the parser turns into an array, is
    not part of this type. *)
Record request := Request {
  req_method : method;
  req_path : list string;
  req_query_name : option string;
  req_body : body
}.

(** What the application answers: the outcome of the handler that took the
    request, or nothing when no route took it.  Express replies 404 to a
    request that no route took and 500 to one whose handler threw. *)
Inductive reply :=
| Handled (o : outcome)
| Unhandled.

Definition replyStatus (r : reply) : N :=
  match r with
  | Handled (Sent (Render st _ _)) => st
  | Handled (Sent (Redirect st _)) => st
  | Handled (Thrown _) => 500
  | Unhandled => 404
  end.

(** The router found in the tree under [routes/usersRouter.js]. *)
Definition usersRouterEarly : list route :=
  [ Route GET [] [UsersListGet];
    Route GET [Lit "create"] [UsersCreateGet];
    Route POST [Lit "create"] [UsersCreatePost];
    Route GET [Lit "update"] [UsersUpdateGet];
    Route POST [Lit "update"] [UsersUpdatePost] ].

(** The revision of the router with the [:id] routes, the delete route and
    the search route.  [usersRouter.post('/:id/delete')] passes no
    callback.  The search route is added after [module.exports], to the
    same router object. *)
Definition usersRouter : list route :=
  [ Route GET [] [UsersListGet];
    Route GET [Lit "create"] [UsersCreateGet];
    Route POST [Lit "create"] [UsersCreatePost];
    Route GET [Param "id"; Lit "update"] [UsersUpdateGet];
    Route POST [Param "id"; Lit "update"] [UsersUpdatePost];
    Route POST [Param "id"; Lit "delete"] [];
    Route GET [Lit "search"] [UserSearchGet] ].

(** The router as the README of the first revision lists it, with the
    controller passed to the delete route. *)
Definition usersRouterReadme : list route :=
  [ Route GET [] [UsersListGet];
    Route GET [Lit "create"] [UsersCreateGet];
    Route POST [Lit "create"] [UsersCreatePost];
    Route GET [Param "id"; Lit "update"] [UsersUpdateGet];
    Route POST [Param "id"; Lit "update"] [UsersUpdatePost];
    Route POST [Param "id"; Lit "delete"] [UserDeletePost] ].

(** Matching of a path against a pattern with the router's default
    options: the whole path must match, literals compare without regard to
    case, a parameter takes one non-empty segment.  The result is
    [req.params]. *)
Fixpoint matchPath (pat : list segment) (p : list string)
    (params : list (string * string)) : option (list (string * string)) :=
  match pat, p with
  | [], [] => Some params
  | Lit l :: pat', seg :: p' =>
      if bool_decide (toLowerCase l = toLowerCase seg)
      then matchPath pat' p' params else None
  | Param x :: pat', seg :: p' =>
      if bool_decide (seg = "") then None
      else matchPath pat' p' (params ++ [(x, seg)])
  | _, _ => None
  end.

Fixpoint param (x : string) (params : list (string * string)) : option string :=
  match params with
  | [] => None
  | (y, v) :: rest => if bool_decide (x = y) then Some v else param x rest
  end.

(** [req.params.id] *)
Definition paramsId (params : list (string * string)) : jsid :=
  match param "id" params with
  | Some v => IdString v
  | None => IdUndefined
  end.

Definition method_eqb (a b : method) : bool :=
  match a, b with
  | GET, GET | POST, POST => true
  | _, _ => false
  end.

Section WithValidatorJs.
Variable isEmail : string -> bool.

Definition call (h : handler) (s : store) (params : list (string * string))
    (req : request) : outcome * store :=
  match h with
  | UsersListGet => usersListGet s
  | UsersCreateGet => usersCreateGet s
  | UsersCreatePost => usersCreatePost isEmail s (req_body req)
  | UsersUpdateGet => usersUpdateGet s (paramsId params)
  | UsersUpdatePost => usersUpdatePost isEmail s (paramsId params) (req_body req)
  | UserSearchGet => userSearchGet s (req_query_name req)
  | UserDeletePost => userDeletePost s (paramsId params)
  end.

(** The router passes the request to the first route whose path matches
    and which has a callback registered for the method.  A route records a
    method when a callback is added for it, so a route registered without
    callbacks handles no method and is skipped.  Every handler of the
    controller ends the request, so only the first callback of the stack
    runs. *)
Fixpoint handle (routes : list route) (s : store) (req : request) : reply * store :=
  match routes with
  | [] => (Unhandled, s)
  | r :: rest =>
      match matchPath (route_path r) (req_path req) [], route_stack r with
      | Some params, h :: _ =>
          if method_eqb (route_method r) (req_method req)
          then let '(o, s') := call h s params req in (Handled o, s')
          else handle rest s req
      | _, _ => handle rest s req
      end
  end.

End WithValidatorJs.

End UsersRouter.

(* ===================================================================== *)
(** ** Runs of the store *)
(* ===================================================================== *)

Module Run.
Import UsersStorage.

(** The three operations that change the store. *)
Inductive op :=
| Add (d : userData)
| Update (id : jsid) (d : userData)
| Delete (id : jsid).

Definition step (s : store) (o : op) : store :=
  match o with
  | Add d => addUser s d
  | Update id d => updateUser s id d
  | Delete id => deleteUser s id
  end.

Definition run (s : store) (ops : list op) : store := foldl step s ops.

(** The ids handed out by [addUser] during a run, oldest first. *)
Fixpoint assigned (s : store) (ops : list op) : list N :=
  match ops with
  | [] => []
  | Add d :: rest => this_id s :: assigned (step s (Add d)) rest
  | o :: rest => assigned (step s o) rest
  end.

(** The property key under which a record files its own [id]. *)
Definition idKey (u : user) : string := propertyKey (user_id u).

End Run.

(* ===================================================================== *)
(** ** Notions of the specification *)
(* ===================================================================== *)

Import JsString UsersStorage UsersController UsersRouter Run.

(** "Contains": [needle] occurs somewhere in [hay]. *)
Definition occursIn (needle hay : string) : Prop :=
  exists pre post : string, hay = pre +:+ needle +:+ post.

(** Strings without white space, and strings of decimal digits. *)
Definition noWhiteSpace (s : string) : Prop :=
  forallb_string (fun c => negb (isWhiteSpace c)) s = true.

Definition allDigits (s : string) : Prop := forallb_string isDigit s = true.

Inductive nameField := FirstName | LastName.

Definition fieldValue (f : nameField) (b : body) : string :=
  match f with
  | FirstName => toString (body_firstName b)
  | LastName => toString (body_lastName b)
  end.

Definition fieldPath (f : nameField) : string :=
  match f with FirstName => "firstName" | LastName => "lastName" end.

Definition fieldLabel (f : nameField) : string :=
  match f with FirstName => "First name" | LastName => "Last name" end.

(** The faults of a submitted name, each with the message that the
    specification attaches to it. *)
Inductive nameFault (v : string) : string -> Prop :=
| ContainsDigit :
    existsb_string isDigit v = true ->
    nameFault v "must only contain letters."
| TrimmedEmpty :
    String.length (trim v) = 0%nat ->
    nameFault v "must be between 1 and 10 characters."
| TrimmedLong :
    (10 < String.length (trim v))%nat ->
    nameFault v "must be between 1 and 10 characters.".

(** Names of 1 to 10 letters. *)
Definition validName (v : string) : Prop :=
  forallb_string isAsciiLetter v = true
  /\ (1 <= String.length v <= 10)%nat.

(** The specification's reading of a match: the trimmed, lower-cased query
    occurs in the lower-cased first name or in the lower-cased last name. *)
Definition matchesQuery (q : string) (u : user) : Prop :=
  occursIn (toLowerCase (trim q)) (toLowerCase (firstName (user_data u)))
  \/ occursIn (toLowerCase (trim q)) (toLowerCase (lastName (user_data u))).

(** The [users] handed to the view by a response. *)
Definition responseUsers (o : outcome) : option (list user) :=
  match o with
  | Sent (Render _ _ vm) => vm_users vm
  | _ => None
  end.

(** Every record is filed under the property key of its own [id]. *)
Definition keysMatch (s : store) : Prop :=
  forall k u, this_storage s !! k = Some u -> idKey u = k.

(* ===================================================================== *)
(** ** Sample data *)
(* ===================================================================== *)

Definition sampleAnna : userData :=
  {| firstName := "Anna"; lastName := "Lee"; email := "anna@example.com";
     age := Some 30%Z; bio := None |}.

Definition sampleBob : userData :=
  {| firstName := "Bob"; lastName := "Ray"; email := "bob@example.com";
     age := None; bio := Some "hello" |}.

(** The store after [addUser(Anna)] and [addUser(Bob)]. *)
Definition sampleStore : store := addUser (addUser constructor sampleAnna) sampleBob.

Definition sampleOps : list op :=
  [Add sampleAnna; Add sampleBob; Delete (IdString "1"); Update (IdString "0") sampleBob].

(** A stand-in for [isEmail], used only to run the handlers on sample
    forms: the address contains an at sign. *)
Definition isEmailSample (s : string) : bool := includes s "@".

Definition formBob7 : body :=
  {| body_firstName := Some "B0b"; body_lastName := Some "Ray";
     body_email := Some "bob@example.com"; body_age := None; body_bio := None |}.

Definition formCarol : body :=
  {| body_firstName := Some "Carol"; body_lastName := Some "Diaz";
     body_email := Some " carol@example.com "; body_age := Some "41";
     body_bio := None |}.

(** Path matching and dispatch compute once the tests on the unknown
    segments are split. *)
Ltac route_cases :=
  cbn; repeat (case_bool_decide; cbn); try done.

(* ===================================================================== *)
(** ** Further notions *)
(* ===================================================================== *)

(** What [validateUser] accepts for the optional fields: an age text that
    [parseInt] reads as a number from 18 to 200, a bio of at most 200 code
    units after trimming. *)
Definition validAge (v : option string) : Prop :=
  forall a, v = Some a ->
    exists n, parseInt (trim a) = Some n /\ (18 <= n <= 200)%Z.

Definition validBio (v : option string) : Prop :=
  forall t, v = Some t -> (String.length (trim t) <= 200)%nat.

(** The application serving requests one after the other. *)
Definition serve (isEmail : string -> bool) (s : store) (reqs : list request) : store :=
  foldl (fun s r => (handle isEmail usersRouter s r).2) s reqs.

Definition isAdd (o : op) : bool :=
  match o with Add _ => true | _ => false end.

(** The number of [addUser] calls in a run. *)
Definition adds (ops : list op) : nat := List.length (List.filter isAdd ops).

(** The data of [u] is the sanitised body of one of the POST requests
    [reqs], and that body passed [validateUser]. *)
Definition acceptedBy (isEmail : string -> bool) (reqs : list request) (u : user) : Prop :=
  exists req, req ∈ reqs
    /\ req_method req = POST
    /\ validateUser isEmail (req_body req) = []
    /\ user_data u = validatedBody (req_body req).

(** Sample forms and requests. *)
Definition formBlankAge : body :=
  {| body_firstName := Some "Carol"; body_lastName := Some "Diaz";
     body_email := Some "carol@example.com"; body_age := Some "  ";
     body_bio := Some "" |}.

Definition formAgeYears : body :=
  {| body_firstName := Some "Carol"; body_lastName := Some "Diaz";
     body_email := Some "carol@example.com"; body_age := Some "41 years ";
     body_bio := None |}.

Definition sampleRequests : list request :=
  [ Request POST ["create"] None formCarol;
    Request GET [] None formBob7;
    Request POST ["0"; "update"] None formBob7;
    Request POST ["0"; "update"] None formAgeYears ].

(** A run in which [updateUser] is only called for ids under which a record
    is stored at that moment. *)
Fixpoint updatesStored (s : store) (ops : list op) : bool :=
  match ops with
  | [] => true
  | Update id d :: rest =>
      bool_decide (is_Some (this_storage s !! propertyKey id))
      && updatesStored (step s (Update id d)) rest
  | o :: rest => updatesStored (step s o) rest
  end.

(** Every record is filed under the decimal text of a number below the
    counter. *)
Definition keysBelow (s : store) : Prop :=
  forall k u, this_storage s !! k = Some u ->
    exists n : N, k = pretty n /\ n < this_id s.

(** A run that adds a user, deletes it, and updates the deleted id; and a
    run that updates an id before any add, deletes it, and adds a user. *)
Definition opsRefile : list op :=
  [Add sampleAnna; Delete (IdString "0"); Update (IdString "0") sampleBob].

Definition opsReissue : list op :=
  [Update (IdString "0") sampleAnna; Delete (IdString "0"); Add sampleBob].

(** A text that does not go on with a digit. *)
Definition noLeadingDigit (s : string) : Prop :=
  match s with
  | EmptyString => True
  | String c _ => isDigit c = false
  end.

(* ===================================================================== *)
(** * Properties *)
(* ===================================================================== *)

(** ** Strings *)

Example trim_Bob : trim "  Bob  " = "Bob".
Proof. reflexivity. Qed.

Example trim_inner_space : trim (String "009" " a b  ") = "a b".
Proof. reflexivity. Qed.

Example toLowerCase_Anna : toLowerCase "Anna" = "anna".
Proof. reflexivity. Qed.

Example parseInt_samples :
  parseInt " 25abc" = Some 25%Z /\ parseInt "-5" = Some (-5)%Z /\ parseInt "" = None.
Proof. repeat split; reflexivity. Qed.

Lemma startsWith_spec (needle hay : string) :
  startsWith needle hay = true <-> exists post, hay = needle +:+ post.
Proof.
  revert hay. induction needle as [|a n IH]; intros hay; simpl.
  - split; [intros _; by exists hay | done].
  - destruct hay as [|b h].
    + split; [done | intros [post Hp]; discriminate].
    + rewrite andb_true_iff, bool_decide_eq_true, IH. split.
      * intros [-> [post ->]]. by exists post.
      * intros [post Hp]. injection Hp as -> ->. eauto.
Qed.

Lemma includes_spec (hay needle : string) :
  includes hay needle = true <-> occursIn needle hay.
Proof.
  unfold occursIn. induction hay as [|c h IH].
  - cbn [includes]. rewrite orb_false_r, startsWith_spec. split.
    + intros [post ->]. by exists "", post.
    + intros [pre [post Hp]]. destruct pre; [by exists post | discriminate].
  - cbn [includes]. rewrite orb_true_iff, startsWith_spec, IH. split.
    + intros [[post ->] | [pre [post ->]]].
      * by exists "", post.
      * by exists (String c pre), post.
    + intros [pre [post Hp]]. destruct pre as [|c' pre].
      * left. by exists post.
      * right. injection Hp as -> ->. by exists pre, post.
Qed.

(** Characters that are not white space are left alone by [trim]. *)

Lemma trimStart_noWhiteSpace s : noWhiteSpace s -> trimStart s = s.
Proof.
  unfold noWhiteSpace. destruct s as [|c s]; [done|]. simpl.
  by destruct (isWhiteSpace c).
Qed.

Lemma trimEnd_noWhiteSpace s : noWhiteSpace s -> trimEnd s = s.
Proof.
  unfold noWhiteSpace. induction s as [|c s IH]; [done|]. simpl.
  intros [Hc Hs]%andb_true_iff. rewrite (IH Hs).
  destruct s; [|done]. by destruct (isWhiteSpace c).
Qed.

Lemma trim_noWhiteSpace s : noWhiteSpace s -> trim s = s.
Proof.
  intros H. unfold trim. rewrite (trimStart_noWhiteSpace _ H).
  by apply trimEnd_noWhiteSpace.
Qed.

Lemma isAsciiLetter_not_space c : isAsciiLetter c = true -> isWhiteSpace c = false.
Proof. by destruct c as [[] [] [] [] [] [] [] []]; vm_compute. Qed.

Lemma isDigit_not_space c : isDigit c = true -> isWhiteSpace c = false.
Proof. by destruct c as [[] [] [] [] [] [] [] []]; vm_compute. Qed.

Lemma isDigit_not_letter c : isDigit c = true -> isAsciiLetter c = false.
Proof. by destruct c as [[] [] [] [] [] [] [] []]; vm_compute. Qed.

(** [trim] only removes white space, so it keeps every digit. *)

Lemma trimStart_digit s :
  existsb_string isDigit (trimStart s) = existsb_string isDigit s.
Proof.
  induction s as [|c s IH]; [done|]. simpl.
  destruct (isWhiteSpace c) eqn:Hc; [|done].
  rewrite IH. destruct (isDigit c) eqn:Hd; [|done].
  apply isDigit_not_space in Hd. congruence.
Qed.

Lemma trimEnd_digit s :
  existsb_string isDigit (trimEnd s) = existsb_string isDigit s.
Proof.
  induction s as [|c s IH]; [done|]. simpl.
  destruct (trimEnd s) as [|c' t] eqn:Ht.
  - rewrite <- IH. simpl. rewrite orb_false_r.
    destruct (isWhiteSpace c) eqn:Hc; simpl; [|by rewrite orb_false_r].
    destruct (isDigit c) eqn:Hd; [|done].
    apply isDigit_not_space in Hd. congruence.
  - by rewrite <- IH.
Qed.

Lemma trim_digit s : existsb_string isDigit (trim s) = existsb_string isDigit s.
Proof. unfold trim. by rewrite trimEnd_digit, trimStart_digit. Qed.

Lemma digit_not_alpha s :
  existsb_string isDigit s = true -> forallb_string isAsciiLetter s = false.
Proof.
  induction s as [|c s IH]; [done|]. simpl.
  intros [Hd | Hs]%orb_true_iff.
  - by rewrite (isDigit_not_letter _ Hd).
  - rewrite (IH Hs). apply andb_false_r.
Qed.

Lemma isAlpha_digit s : existsb_string isDigit s = true -> isAlpha (trim s) = false.
Proof.
  intros H. unfold isAlpha. rewrite digit_not_alpha; [apply andb_false_r|].
  by rewrite trim_digit.
Qed.

Lemma letters_noWhiteSpace s : forallb_string isAsciiLetter s = true -> noWhiteSpace s.
Proof.
  unfold noWhiteSpace. induction s as [|c s IH]; [done|]. simpl.
  intros [Hc Hs]%andb_true_iff.
  by rewrite (isAsciiLetter_not_space _ Hc), (IH Hs).
Qed.

(** ** Property keys of numbers *)

Lemma pretty_N_char_digit x : isDigit (pretty_N_char x) = true.
Proof. unfold pretty_N_char. by repeat case_match. Qed.

Lemma pretty_N_go_digits x s : allDigits s -> allDigits (pretty_N_go x s).
Proof.
  revert s. induction (N.lt_wf_0 x) as [x _ IH]. intros s Hs.
  destruct (decide (x = 0)) as [-> | Hx].
  - by rewrite pretty_N_go_0.
  - rewrite pretty_N_go_step by lia. apply IH.
    + apply N.div_lt; lia.
    + unfold allDigits. simpl. by rewrite pretty_N_char_digit.
Qed.

Lemma pretty_N_digits (n : N) : allDigits (pretty n).
Proof.
  unfold pretty, pretty_N. case_decide; [done|]. by apply pretty_N_go_digits.
Qed.

(** Nothing is inherited under a key made of digits. *)
Lemma inherited_digits s k : allDigits k -> inherited s k = JUndefined.
Proof.
  intros Hk. unfold inherited.
  destruct (decide (k = "__proto__")) as [-> | _]; [discriminate Hk|].
  assert (forall r, userField r k = None) as Hfield.
  { intros r. unfold userField.
    repeat (case_decide as E; [rewrite E in Hk; discriminate Hk | clear E]). done. }
  destruct (storage_proto s) as [r|]; simpl; rewrite ?Hfield;
    (case_decide as Hin; [|done]);
    unfold objectPrototypeKeys in Hin;
    repeat (apply elem_of_cons in Hin as [E | Hin]; [rewrite E in Hk; discriminate Hk|]);
    inversion Hin.
Qed.

Lemma inherited_number s n : inherited s (propertyKey (IdNumber n)) = JUndefined.
Proof. apply inherited_digits, pretty_N_digits. Qed.

Lemma propertyKey_number_not_proto n : propertyKey (IdNumber n) ≠ "__proto__".
Proof.
  simpl. intros H. pose proof (pretty_N_digits n) as Hd.
  rewrite H in Hd. discriminate Hd.
Qed.

(** ** The store *)

Lemma readProperty_writeProperty s k u :
  readProperty (writeProperty s k u) k = JUser u.
Proof.
  unfold readProperty, writeProperty.
  destruct (decide (k = "__proto__" /\ this_storage s !! k = None)) as [[-> Hown] | _]; simpl.
  - by rewrite Hown.
  - by rewrite lookup_insert_eq.
Qed.

Lemma getUser_updateUser s id d :
  getUser (updateUser s id d) id = JUser (User id d).
Proof. apply readProperty_writeProperty. Qed.

Lemma writeProperty_number s n u :
  writeProperty s (propertyKey (IdNumber n)) u
  = {| this_storage := <[propertyKey (IdNumber n) := u]> (this_storage s);
       storage_proto := storage_proto s; this_id := this_id s |}.
Proof.
  unfold writeProperty. rewrite decide_False; [done|].
  intros [H _]. by apply propertyKey_number_not_proto in H.
Qed.

Lemma addUser_unfold s d :
  addUser s d
  = {| this_storage := <[pretty (this_id s) := User (IdNumber (this_id s)) d]> (this_storage s);
       storage_proto := storage_proto s; this_id := this_id s + 1 |}.
Proof. unfold addUser. by rewrite writeProperty_number. Qed.

Lemma elem_of_getUsers s u :
  u ∈ getUsers s <-> exists k, this_storage s !! k = Some u.
Proof.
  unfold getUsers. rewrite list_elem_of_fmap. split.
  - intros [[k v] [-> Hkv]]. exists k. by apply elem_of_map_to_list.
  - intros [k Hk]. exists (k, u). split; [done|]. by apply elem_of_map_to_list.
Qed.

Example sampleStore_get :
  getUser sampleStore (IdString "0") = JUser (User (IdNumber 0) sampleAnna)
  /\ getUser sampleStore (IdString "1") = JUser (User (IdNumber 1) sampleBob)
  /\ getUser sampleStore (IdString "2") = JUndefined
  /\ this_id sampleStore = 2.
Proof. by vm_compute. Qed.

(** *** update on an id that is not in the store *)

(** C1, as stated, fails: [updateUser] on an id whose lookup is [undefined]
    stores a record under that id, and the next lookup returns it. *)
Lemma update_unknown_id_not_absent :
  getUser sampleStore (IdString "7") = JUndefined
  /\ getUser (updateUser sampleStore (IdString "7") sampleBob) (IdString "7")
     = JUser (User (IdString "7") sampleBob)
  /\ ~ (forall s id d, getUser s id = JUndefined ->
                       getUser (updateUser s id d) id = JUndefined).
Proof.
  split; [by vm_compute|]. split; [by vm_compute|].
  intros H. specialize (H sampleStore (IdString "7") sampleBob).
  rewrite getUser_updateUser in H. discriminate H. by vm_compute.
Qed.

(** C1 (amended): for every id whose lookup is absent, [update(id, fields)]
    creates the record: the following [get(id)] returns the record made of
    [fields] and [id]. *)
Theorem update_unknown_id_creates (s : store) (id : jsid) (d : userData) :
  getUser s id = JUndefined ->
  getUser (updateUser s id d) id = JUser {| user_id := id; user_data := d |}.
Proof. intros _. apply getUser_updateUser. Qed.

Lemma update_unknown_id_creates_witness :
  getUser sampleStore (IdString "7") = JUndefined
  /\ getUser (updateUser sampleStore (IdString "7") sampleBob) (IdString "7")
     = JUser {| user_id := IdString "7"; user_data := sampleBob |}.
Proof.
  split; [by vm_compute|].
  apply (update_unknown_id_creates sampleStore (IdString "7") sampleBob).
  by vm_compute.
Defined.

(** *** update on an id that is in the store *)

(** C5: when a record [old] is stored at [id], [update(id, newFields)]
    followed by [get(id)] returns exactly [newFields] together with [id];
    the result does not depend on [old] nor on anything else in the store it
    was written to. *)
Theorem update_then_get_replaces (s : store) (id : jsid) (old : user) (newFields : userData) :
  getUser s id = JUser old ->
  getUser (updateUser s id newFields) id
  = JUser {| user_id := id; user_data := newFields |}
  /\ forall s' : store,
       getUser (updateUser s' id newFields) id
       = getUser (updateUser s id newFields) id.
Proof.
  intros _. split; [apply getUser_updateUser|].
  intros s'. by rewrite !getUser_updateUser.
Qed.

Lemma update_then_get_replaces_witness :
  getUser sampleStore (IdString "0") = JUser (User (IdNumber 0) sampleAnna)
  /\ getUser (updateUser sampleStore (IdString "0") sampleBob) (IdString "0")
     = JUser {| user_id := IdString "0"; user_data := sampleBob |}.
Proof.
  split; [by vm_compute|].
  apply (update_then_get_replaces sampleStore (IdString "0")
           (User (IdNumber 0) sampleAnna) sampleBob).
  by vm_compute.
Defined.

(** *** delete *)

Lemma deleteUser_idempotent s id : deleteUser (deleteUser s id) id = deleteUser s id.
Proof. unfold deleteUser. simpl. by rewrite delete_delete_eq. Qed.

Lemma getUser_deleteUser s id :
  getUser (deleteUser s id) id = inherited s (propertyKey id).
Proof.
  unfold getUser, readProperty, deleteUser. simpl. by rewrite lookup_delete_eq.
Qed.

Lemma delete_then_get_digits s k :
  allDigits k -> getUser (deleteUser s (IdString k)) (IdString k) = JUndefined.
Proof. intros Hk. rewrite getUser_deleteUser. by apply inherited_digits. Qed.

(** C9, as stated, fails: after [deleteUser('constructor')] the lookup
    [this.storage['constructor']] still finds the member that the storage
    object inherits from [Object.prototype]. *)
Lemma delete_then_get_inherited_member :
  getUser (deleteUser constructor (IdString "constructor")) (IdString "constructor")
  = JBuiltin "constructor"
  /\ ~ (forall s id, getUser (deleteUser s id) id = JUndefined).
Proof.
  split; [by vm_compute|].
  intros H. specialize (H constructor (IdString "constructor")). by vm_compute in H.
Qed.

(** C9 (amended): for every store state and every id under which the storage
    object inherits nothing from its prototype chain, [delete(id)] followed
    by [get(id)] returns absent; and for every id, deleting twice leaves the
    same store as deleting once. *)
Theorem delete_then_get_absent (s : store) (id : jsid) :
  (inherited s (propertyKey id) = JUndefined ->
   getUser (deleteUser s id) id = JUndefined)
  /\ deleteUser (deleteUser s id) id = deleteUser s id.
Proof.
  split; [|apply deleteUser_idempotent].
  intros H. by rewrite getUser_deleteUser.
Qed.

Lemma delete_then_get_absent_witness :
  inherited sampleStore (propertyKey (IdString "0")) = JUndefined
  /\ getUser (deleteUser sampleStore (IdString "0")) (IdString "0") = JUndefined
  /\ deleteUser (deleteUser sampleStore (IdString "0")) (IdString "0")
     = deleteUser sampleStore (IdString "0").
Proof.
  destruct (delete_then_get_absent sampleStore (IdString "0")) as [Hget Hidem].
  split; [by vm_compute|]. split; [|exact Hidem].
  apply Hget. by vm_compute.
Defined.

(** ** The router *)

Lemma delete_route_early (isEmail : string -> bool) s id q b :
  handle isEmail usersRouterEarly s (Request POST [id; "delete"] q b) = (Unhandled, s).
Proof. by route_cases. Qed.

(** With the controller passed to the route, as the README of the first
    revision lists it, the same request does reach [userDeletePost]. *)
Lemma delete_route_readme (isEmail : string -> bool) s id q b :
  id ≠ "" ->
  handle isEmail usersRouterReadme s (Request POST [id; "delete"] q b)
  = (Handled (Sent (Redirect 302 "/")), deleteUser s (IdString id)).
Proof. intros Hid. by route_cases. Qed.

(** C2: the code does not do what the claim says.  [POST /{id}/delete] is
    registered without a callback, so no route takes the request: the
    controller [userDeletePost] is not invoked, the store is left as it was,
    and the reply is 404 instead of a 302 redirect.  In particular a record
    stored under the id is still there afterwards. *)
Theorem delete_route_has_no_callback (isEmail : string -> bool)
    (s : store) (id : string) (q : option string) (b : body) :
  let req := Request POST [id; "delete"] q b in
  handle isEmail usersRouter s req = (Unhandled, s)
  /\ replyStatus (handle isEmail usersRouter s req).1 = 404
  /\ getUser (handle isEmail usersRouter s req).2 (IdString id) = getUser s (IdString id)
  /\ handle isEmail usersRouter sampleStore (Request POST ["0"; "delete"] q b)
     = (Unhandled, sampleStore)
  /\ getUser sampleStore (IdString "0") = JUser (User (IdNumber 0) sampleAnna)
  /\ (userDeletePost sampleStore (IdString "0")).2 ≠ sampleStore.
Proof.
  assert (handle isEmail usersRouter s (Request POST [id; "delete"] q b) = (Unhandled, s))
    as Hs by route_cases.
  cbv zeta. rewrite Hs. do 3 (split; [done|]).
  split; [by route_cases|]. split; [by vm_compute|].
  intros H. apply (f_equal (fun t => getUser t (IdString "0"))) in H.
  by vm_compute in H.
Qed.

(** *** search without the [name] parameter *)

(** C10: when the query has no [name], the search handler sends no response:
    it throws on [req.query.name.trim()] before the users are read, for every
    store; routed through the application, the request ends in the error
    reply 500, not in the zero-match reply 404. *)
Theorem search_without_name_throws (isEmail : string -> bool) (s : store) (b : body) :
  (exists e, userSearchGet s None = (Thrown e, s))
  /\ (forall r, userSearchGet s None ≠ (Sent r, s))
  /\ (exists e, handle isEmail usersRouter s (Request GET ["search"] None b)
                = (Handled (Thrown e), s))
  /\ replyStatus (handle isEmail usersRouter s (Request GET ["search"] None b)).1 = 500.
Proof.
  split; [by eexists|]. split; [by intros r|]. split; [by eexists|]. done.
Qed.

(** ** Validation *)

Example name_messages :
  fieldLabel FirstName +:+ " " +:+ alphaErr = "First name must only contain letters."
  /\ fieldLabel LastName +:+ " " +:+ lengthErr = "Last name must be between 1 and 10 characters.".
Proof. split; reflexivity. Qed.

Section Validation.
Variable isEmail : string -> bool.

Lemma nameChain_fault p label v m :
  nameFault (toString v) m ->
  ValidationError p (label +:+ " " +:+ m) ∈ nameChain p label v.
Proof.
  unfold nameChain. intros [Hd | He | Hl]; apply elem_of_app.
  - left. rewrite (isAlpha_digit _ Hd). apply list_elem_of_singleton. reflexivity.
  - right. unfold isLength. rewrite He. apply list_elem_of_singleton. reflexivity.
  - right. unfold isLength.
    replace (N.of_nat (String.length (trim (toString v))) <=? 10) with false
      by (symmetry; apply N.leb_gt; lia).
    rewrite andb_false_r. apply list_elem_of_singleton. reflexivity.
Qed.

Lemma validateUser_fault b f m :
  nameFault (fieldValue f b) m ->
  ValidationError (fieldPath f) (fieldLabel f +:+ " " +:+ m) ∈ validateUser isEmail b.
Proof.
  intros H. unfold validateUser. destruct f; simpl in H.
  - apply elem_of_app. left. by apply nameChain_fault.
  - apply elem_of_app. right. apply elem_of_app. left. by apply nameChain_fault.
Qed.

Lemma usersCreatePost_rejects s b :
  validateUser isEmail b ≠ [] ->
  usersCreatePost isEmail s b
  = (Sent (Render 400 "createUser"
             {| vm_title := "Create user"; vm_users := None; vm_user := None;
                vm_errors := Some (validateUser isEmail b); vm_message := None |}), s).
Proof. intros H. unfold usersCreatePost. by rewrite bool_decide_eq_false_2. Qed.

Lemma usersUpdatePost_rejects s id b :
  validateUser isEmail b ≠ [] ->
  usersUpdatePost isEmail s id b
  = (Sent (Render 400 "updateUser"
             {| vm_title := "Update user"; vm_users := None;
                vm_user := Some (getUser s id);
                vm_errors := Some (validateUser isEmail b); vm_message := None |}), s).
Proof. intros H. unfold usersUpdatePost. by rewrite bool_decide_eq_false_2. Qed.

Lemma nameChain_validName p label v :
  validName v -> nameChain p label (Some v) = [] /\ trim v = v.
Proof.
  intros [Hl [Hmin Hmax]].
  assert (trim v = v) as Ht by (by apply trim_noWhiteSpace, letters_noWhiteSpace).
  split; [|done]. unfold nameChain, toString. simpl. rewrite Ht.
  unfold isAlpha, isLength. rewrite Hl.
  rewrite bool_decide_eq_false_2 by (intros ->; simpl in Hmin; lia).
  replace (1 <=? N.of_nat (String.length v)) with true by (symmetry; apply N.leb_le; lia).
  replace (N.of_nat (String.length v) <=? 10) with true by (symmetry; apply N.leb_le; lia).
  done.
Qed.

End Validation.

(** C4: whenever the submitted [firstName] or [lastName] contains a digit,
    or is empty after trimming, or is longer than 10 after trimming, both
    the create handler and the update handler report the message attached to
    that fault for that field, answer 400, and return the store unchanged. *)
Theorem invalid_name_rejected (isEmail : string -> bool)
    (s : store) (id : jsid) (b : body) (f : nameField) (m : string) :
  nameFault (fieldValue f b) m ->
  exists errs : list validationError,
    ValidationError (fieldPath f) (fieldLabel f +:+ " " +:+ m) ∈ errs
    /\ usersCreatePost isEmail s b
       = (Sent (Render 400 "createUser"
                  {| vm_title := "Create user"; vm_users := None; vm_user := None;
                     vm_errors := Some errs; vm_message := None |}), s)
    /\ usersUpdatePost isEmail s id b
       = (Sent (Render 400 "updateUser"
                  {| vm_title := "Update user"; vm_users := None;
                     vm_user := Some (getUser s id);
                     vm_errors := Some errs; vm_message := None |}), s).
Proof.
  intros Hf. exists (validateUser isEmail b).
  pose proof (validateUser_fault isEmail b f m Hf) as Hin.
  assert (validateUser isEmail b ≠ []) as Hne by (intros E; rewrite E in Hin; inversion Hin).
  split; [done|]. split.
  - by apply usersCreatePost_rejects.
  - by apply usersUpdatePost_rejects.
Qed.

Lemma invalid_name_rejected_witness :
  exists errs : list validationError,
    ValidationError "firstName" "First name must only contain letters." ∈ errs
    /\ usersCreatePost isEmailSample sampleStore formBob7
       = (Sent (Render 400 "createUser"
                  {| vm_title := "Create user"; vm_users := None; vm_user := None;
                     vm_errors := Some errs; vm_message := None |}), sampleStore)
    /\ usersUpdatePost isEmailSample sampleStore (IdString "0") formBob7
       = (Sent (Render 400 "updateUser"
                  {| vm_title := "Update user"; vm_users := None;
                     vm_user := Some (getUser sampleStore (IdString "0"));
                     vm_errors := Some errs; vm_message := None |}), sampleStore).
Proof.
  apply (invalid_name_rejected isEmailSample sampleStore (IdString "0") formBob7
           FirstName "must only contain letters.").
  apply ContainsDigit. reflexivity.
Defined.

(** ** Runs of the store: the counter and the keys *)

Lemma this_id_writeProperty s k u : this_id (writeProperty s k u) = this_id s.
Proof. unfold writeProperty. by case_decide. Qed.

Lemma this_id_step s o : this_id s <= this_id (step s o).
Proof.
  destruct o as [d | id d | id]; simpl.
  - rewrite this_id_writeProperty. lia.
  - unfold updateUser. rewrite this_id_writeProperty. lia.
  - lia.
Qed.

Lemma this_id_run s ops : this_id s <= this_id (run s ops).
Proof.
  revert s. induction ops as [|o ops IH]; intros s; simpl; [lia|].
  etrans; [apply this_id_step | apply IH].
Qed.

Lemma this_id_addUser s d : this_id (addUser s d) = this_id s + 1.
Proof. unfold addUser. simpl. by rewrite this_id_writeProperty. Qed.

(** Every id handed out during a run is at least the counter at its start
    and below the counter at its end. *)
Lemma assigned_bounds s ops :
  Forall (fun i => this_id s <= i < this_id (run s ops)) (assigned s ops).
Proof.
  revert s. induction ops as [|o ops IH]; intros s; [constructor|].
  pose proof (this_id_step s o) as Hstep.
  assert (Forall (fun i => this_id s <= i < this_id (run s (o :: ops)))
            (assigned (step s o) ops)) as Hrest.
  { eapply Forall_impl; [apply IH|]. simpl. intros i [? ?]. split; [lia | done]. }
  destruct o as [d | id d | id]; try exact Hrest.
  cbn [assigned]. constructor; [|exact Hrest].
  split; [lia|].
  pose proof (this_id_run (addUser s d) ops) as Hrun.
  rewrite this_id_addUser in Hrun.
  change (run s (Add d :: ops)) with (run (addUser s d) ops). lia.
Qed.

Lemma assigned_sorted s ops : StronglySorted N.lt (assigned s ops).
Proof.
  revert s. induction ops as [|o ops IH]; intros s; [constructor|].
  destruct o as [d | id d | id]; cbn [assigned]; try apply IH.
  constructor; [apply IH|].
  eapply Forall_impl; [apply assigned_bounds|].
  intros i [Hi _]. change (step s (Add d)) with (addUser s d) in Hi.
  rewrite this_id_addUser in Hi. lia.
Qed.

Lemma keysMatch_writeProperty s id d :
  keysMatch s -> keysMatch (writeProperty s (propertyKey id) (User id d)).
Proof.
  intros Hs k u. unfold writeProperty. case_decide; simpl; [apply Hs|].
  rewrite lookup_insert. case_decide as Hk.
  - intros [= <-]. by subst.
  - apply Hs.
Qed.

Lemma keysMatch_step s o : keysMatch s -> keysMatch (step s o).
Proof.
  intros Hs. destruct o as [d | id d | id]; simpl.
  - intros k u. unfold addUser. simpl.
    apply (keysMatch_writeProperty s (IdNumber (this_id s)) d Hs).
  - by apply keysMatch_writeProperty.
  - intros k u. unfold deleteUser. simpl. rewrite lookup_delete.
    case_decide; [done | apply Hs].
Qed.

Lemma keysMatch_run s ops : keysMatch s -> keysMatch (run s ops).
Proof.
  revert s. induction ops as [|o ops IH]; intros s Hs; [done|].
  simpl. apply IH. by apply keysMatch_step.
Qed.

Lemma keysMatch_constructor : keysMatch constructor.
Proof. intros k u. unfold constructor. simpl. by rewrite lookup_empty. Qed.

Lemma keysMatch_NoDup s : keysMatch s -> NoDup (idKey <$> getUsers s).
Proof.
  intros Hs. unfold getUsers.
  assert (idKey <$> (map_to_list (this_storage s)).*2 = (map_to_list (this_storage s)).*1)
    as ->.
  { rewrite <- list_fmap_compose. apply list_fmap_ext.
    intros i [k u] Hi. simpl. apply Hs.
    apply elem_of_map_to_list. eapply list_elem_of_lookup_2. exact Hi. }
  apply NoDup_fst_map_to_list.
Qed.

Lemma run_app s ops1 ops2 : run s (ops1 ++ ops2) = run (run s ops1) ops2.
Proof. apply foldl_app. Qed.

Lemma updatesStored_app s ops1 ops2 :
  updatesStored s (ops1 ++ ops2)
  = updatesStored s ops1 && updatesStored (run s ops1) ops2.
Proof.
  revert s. induction ops1 as [|o ops1 IH]; intros s; [done|].
  destruct o as [d | id d | id]; cbn [app updatesStored]; rewrite IH; [done| |done].
  by rewrite andb_assoc.
Qed.

Lemma keysBelow_step s o :
  keysBelow s -> updatesStored s [o] = true -> keysBelow (step s o).
Proof.
  intros Hs Ho. destruct o as [d | id d | id]; cbn [step].
  - intros k u. rewrite addUser_unfold. simpl. rewrite lookup_insert.
    case_decide as E.
    + intros _. exists (this_id s). split; [done | lia].
    + intros Hk. destruct (Hs k u Hk) as [n [-> Hn]]. exists n. split; [done | lia].
  - cbn [updatesStored] in Ho. rewrite andb_true_r in Ho.
    apply bool_decide_eq_true in Ho as [old Hold].
    intros k u. unfold updateUser, writeProperty.
    case_decide as Hp; simpl; [apply Hs|].
    rewrite lookup_insert. case_decide as E; [|apply Hs].
    intros _. subst k. exact (Hs _ _ Hold).
  - intros k u. unfold deleteUser. simpl. rewrite lookup_delete.
    case_decide; [done | apply Hs].
Qed.

Lemma keysBelow_run s ops :
  keysBelow s -> updatesStored s ops = true -> keysBelow (run s ops).
Proof.
  revert s. induction ops as [|o ops IH]; intros s Hs Hops; [done|].
  change (o :: ops) with ([o] ++ ops)%list in Hops.
  rewrite updatesStored_app in Hops. apply andb_true_iff in Hops as [Ho Hops].
  apply (IH (step s o)); [by apply keysBelow_step | done].
Qed.

Lemma keysBelow_constructor : keysBelow constructor.
Proof. intros k u. unfold constructor. simpl. by rewrite lookup_empty. Qed.

(** Once nothing is stored under the text of a number below the counter, it
    stays so as long as updates go to stored ids only. *)
Lemma absent_stays_absent s ops n :
  n < this_id s ->
  this_storage s !! pretty n = None ->
  updatesStored s ops = true ->
  this_storage (run s ops) !! pretty n = None.
Proof.
  revert s. induction ops as [|o ops IH]; intros s Hn Habs Hops; [done|].
  change (o :: ops) with ([o] ++ ops)%list in Hops.
  rewrite updatesStored_app in Hops. apply andb_true_iff in Hops as [Ho Hops].
  apply (IH (step s o)); [pose proof (this_id_step s o); lia | | done].
  destruct o as [d | id d | id]; cbn [step].
  - rewrite addUser_unfold. simpl. rewrite lookup_insert_ne; [done|].
    intros E. apply (inj pretty) in E. lia.
  - cbn [updatesStored] in Ho. rewrite andb_true_r in Ho.
    apply bool_decide_eq_true in Ho as [old Hold].
    unfold updateUser, writeProperty. case_decide; simpl; [done|].
    rewrite lookup_insert_ne; [done|]. intros E. rewrite E in Hold. congruence.
  - unfold deleteUser. simpl. rewrite lookup_delete. by case_decide.
Qed.

(** C3, as stated, fails: a deleted id is used again.  After
    [addUser], [deleteUser('0')] and [updateUser('0', ..)] a record is filed
    again under the deleted id 0; and after [updateUser('0', ..)],
    [deleteUser('0')] and [addUser], the id 0 is assigned by [addUser]
    although the record that held it was deleted. *)
Lemma deleted_id_is_used_again :
  getUser (run constructor [Add sampleAnna]) (IdString "0")
  = JUser (User (IdNumber 0) sampleAnna)
  /\ getUser (run constructor [Add sampleAnna; Delete (IdString "0")]) (IdString "0")
     = JUndefined
  /\ getUser (run constructor opsRefile) (IdString "0")
     = JUser (User (IdString "0") sampleBob)
  /\ getUser (run constructor [Update (IdString "0") sampleAnna]) (IdString "0")
     = JUser (User (IdString "0") sampleAnna)
  /\ assigned constructor opsReissue = [0]
  /\ getUser (run constructor opsReissue) (IdString "0")
     = JUser (User (IdNumber 0) sampleBob)
  /\ ~ (forall (ops1 ops2 : list op) (id : jsid),
          is_Some (this_storage (run constructor ops1) !! propertyKey id) ->
          this_storage (run constructor (ops1 ++ Delete id :: ops2)) !! propertyKey id
          = None).
Proof.
  do 6 (split; [by vm_compute|]).
  intros H.
  specialize (H [Add sampleAnna] [Update (IdString "0") sampleBob] (IdString "0")).
  assert (is_Some (this_storage (run constructor [Add sampleAnna])
                     !! propertyKey (IdString "0"))) as Hs
    by (eexists; vm_compute; reflexivity).
  specialize (H Hs). by vm_compute in H.
Qed.

(** C3 (amended): in every state that a sequence of add, update and delete
    operations leads to from the new store, the ids of the stored records
    are pairwise distinct (as values, and even as property keys), and the ids
    that [addUser] assigns are strictly increasing and below the counter, so
    [addUser] assigns no id twice.  In a sequence in which [updateUser] is
    only applied to ids stored at that moment, an id is never held by a
    record again after the record holding it is deleted: nothing is stored
    under it at the end of the sequence, its lookup is absent, and no later
    [addUser] assigns it. *)
Theorem ids_unique_increasing_reused_only_by_upsert (ops ops1 ops2 : list op) (id : jsid) :
  (NoDup (user_id <$> getUsers (run constructor ops))
   /\ NoDup (idKey <$> getUsers (run constructor ops))
   /\ StronglySorted N.lt (assigned constructor ops)
   /\ Forall (fun n => n < this_id (run constructor ops)) (assigned constructor ops))
  /\ (updatesStored constructor (ops1 ++ Delete id :: ops2) = true ->
      is_Some (this_storage (run constructor ops1) !! propertyKey id) ->
      this_storage (run constructor (ops1 ++ Delete id :: ops2)) !! propertyKey id = None
      /\ getUser (run constructor (ops1 ++ Delete id :: ops2)) id = JUndefined
      /\ Forall (fun n => pretty n ≠ propertyKey id)
           (assigned (run constructor ops1) (Delete id :: ops2))).
Proof.
  split.
  { assert (NoDup (idKey <$> getUsers (run constructor ops))) as Hkeys
      by apply keysMatch_NoDup, keysMatch_run, keysMatch_constructor.
    split.
    { apply (NoDup_fmap_1 propertyKey). rewrite <- list_fmap_compose. exact Hkeys. }
    split; [done|]. split; [apply assigned_sorted|].
    eapply Forall_impl; [apply assigned_bounds|]. by intros n [_ Hn]. }
  intros Hops [old Hold].
  rewrite updatesStored_app in Hops. apply andb_true_iff in Hops as [Hops1 Hops2].
  destruct (keysBelow_run constructor ops1 keysBelow_constructor Hops1 _ _ Hold)
    as [n [Hkey Hn]].
  set (s1 := run constructor ops1) in *.
  assert (this_storage (run constructor (ops1 ++ Delete id :: ops2)) !! propertyKey id = None)
    as Habs.
  { rewrite run_app. fold s1. rewrite Hkey.
    change (run s1 (Delete id :: ops2)) with (run (deleteUser s1 id) ops2).
    apply absent_stays_absent; [done | | done].
    unfold deleteUser. simpl. rewrite <- Hkey. apply lookup_delete_eq. }
  split; [done|]. split.
  - unfold getUser, readProperty. rewrite Habs, Hkey.
    apply inherited_digits, pretty_N_digits.
  - eapply Forall_impl; [apply (assigned_bounds s1 (Delete id :: ops2))|].
    intros m [Hm _] E. rewrite Hkey in E. apply (inj pretty) in E. lia.
Qed.

Lemma ids_unique_increasing_reused_only_by_upsert_witness :
  this_storage
    (run constructor
       ([Add sampleAnna; Add sampleBob; Update (IdString "1") sampleAnna]
        ++ Delete (IdString "0") :: [Add sampleBob; Update (IdString "2") sampleAnna]))
    !! propertyKey (IdString "0") = None.
Proof.
  refine (proj1 (proj2 (ids_unique_increasing_reused_only_by_upsert []
            [Add sampleAnna; Add sampleBob; Update (IdString "1") sampleAnna]
            [Add sampleBob; Update (IdString "2") sampleAnna] (IdString "0")) _ _)).
  - by vm_compute.
  - eexists. vm_compute. reflexivity.
Defined.

(** C6: in every reachable state, a submission whose [firstName] and
    [lastName] are 1 to 10 letters and whose other fields pass their chains
    is accepted: the handler redirects, the record gets the counter as its
    id, which is greater than every id assigned before, and afterwards the
    record is returned by [getUser] for that id and is among [getUsers]. *)
Theorem valid_create_stores_record (isEmail : string -> bool)
    (ops : list op) (b : body) (fn ln : string) :
  body_firstName b = Some fn -> validName fn ->
  body_lastName b = Some ln -> validName ln ->
  emailChain isEmail (body_email b) = [] ->
  ageChain (body_age b) = [] ->
  bioChain (body_bio b) = [] ->
  let s := run constructor ops in
  let record := {| user_id := IdNumber (this_id s); user_data := validatedBody b |} in
  firstName (validatedBody b) = fn /\ lastName (validatedBody b) = ln
  /\ usersCreatePost isEmail s b = (Sent (Redirect 302 "/"), addUser s (validatedBody b))
  /\ assigned s [Add (validatedBody b)] = [this_id s]
  /\ Forall (fun n => n < this_id s) (assigned constructor ops)
  /\ getUser (addUser s (validatedBody b)) (IdNumber (this_id s)) = JUser record
  /\ getUser (addUser s (validatedBody b)) (IdString (pretty (this_id s))) = JUser record
  /\ record ∈ getUsers (addUser s (validatedBody b)).
Proof.
  intros Hfn Vfn Hln Vln Hemail Hage Hbio s record.
  destruct (nameChain_validName "firstName" "First name" fn Vfn) as [Cfn Tfn].
  destruct (nameChain_validName "lastName" "Last name" ln Vln) as [Cln Tln].
  assert (validateUser isEmail b = []) as Hok.
  { unfold validateUser. by rewrite Hfn, Hln, Cfn, Cln, Hemail, Hage, Hbio. }
  assert (this_storage (addUser s (validatedBody b)) !! pretty (this_id s) = Some record)
    as Hstored by (rewrite addUser_unfold; simpl; apply lookup_insert_eq).
  split; [by unfold validatedBody; simpl; rewrite Hfn|].
  split; [by unfold validatedBody; simpl; rewrite Hln|].
  split; [by unfold usersCreatePost; rewrite Hok|].
  split; [done|].
  split; [eapply Forall_impl; [apply assigned_bounds|]; by intros n [_ Hn]|].
  split; [by unfold getUser, readProperty; simpl propertyKey; rewrite Hstored|].
  split; [by unfold getUser, readProperty; simpl propertyKey; rewrite Hstored|].
  apply elem_of_getUsers. eauto.
Qed.

Lemma valid_create_stores_record_witness :
  let s := run constructor sampleOps in
  let record := {| user_id := IdNumber (this_id s);
                   user_data := validatedBody formCarol |} in
  firstName (validatedBody formCarol) = "Carol"
  /\ lastName (validatedBody formCarol) = "Diaz"
  /\ usersCreatePost isEmailSample s formCarol
     = (Sent (Redirect 302 "/"), addUser s (validatedBody formCarol))
  /\ assigned s [Add (validatedBody formCarol)] = [this_id s]
  /\ Forall (fun n => n < this_id s) (assigned constructor sampleOps)
  /\ getUser (addUser s (validatedBody formCarol)) (IdNumber (this_id s)) = JUser record
  /\ getUser (addUser s (validatedBody formCarol)) (IdString (pretty (this_id s)))
     = JUser record
  /\ record ∈ getUsers (addUser s (validatedBody formCarol)).
Proof.
  apply (valid_create_stores_record isEmailSample sampleOps formCarol "Carol" "Diaz").
  - reflexivity.
  - split; [reflexivity | simpl; lia].
  - reflexivity.
  - split; [reflexivity | simpl; lia].
  - reflexivity.
  - reflexivity.
  - reflexivity.
Defined.

Example create_after_sampleOps :
  assigned constructor sampleOps = [0; 1]
  /\ this_id (run constructor sampleOps) = 2
  /\ validatedBody formCarol
     = {| firstName := "Carol"; lastName := "Diaz"; email := "carol@example.com";
          age := Some 41%Z; bio := None |}.
Proof. by vm_compute. Qed.

(** ** Search *)

Lemma matchesTerm_spec q u :
  matchesTerm (toLowerCase (trim q)) u = true <-> matchesQuery q u.
Proof.
  unfold matchesTerm, matchesQuery. by rewrite orb_true_iff, !includes_spec.
Qed.

Lemma elem_of_filter_bool {A} (f : A -> bool) (l : list A) (x : A) :
  x ∈ List.filter f l <-> x ∈ l /\ f x = true.
Proof. rewrite !list_elem_of_In. apply filter_In. Qed.

Lemma filter_bool_sublist {A} (f : A -> bool) (l : list A) :
  List.filter f l `sublist_of` l.
Proof.
  induction l as [|x l IH]; simpl; [constructor|].
  destruct (f x); by constructor.
Qed.

Lemma length_pos_false {A} (l : list A) : (0 <? List.length l)%nat = false <-> l = [].
Proof. destruct l; simpl; split; intros H; done. Qed.

Lemma userSearchGet_users s q :
  responseUsers (userSearchGet s (Some q)).1
  = Some (List.filter (matchesTerm (toLowerCase (trim q))) (getUsers s))
  /\ (userSearchGet s (Some q)).2 = s.
Proof.
  unfold userSearchGet.
  destruct (0 <? List.length _)%nat eqn:E; simpl; [done|].
  apply length_pos_false in E. by rewrite E.
Qed.

(** C7: for every store and every query string, the users that the search
    hands to the view are exactly the stored records whose lower-cased
    [firstName] or [lastName] contains the trimmed, lower-cased query, each
    once and none else; the store is not changed.  With "Anna" and "Bob"
    stored, the query "an" returns the "Anna" record only. *)
Theorem search_returns_exactly_matches (s : store) (q : string) :
  (exists found : list user,
      responseUsers (userSearchGet s (Some q)).1 = Some found
      /\ (forall u, u ∈ found <-> u ∈ getUsers s /\ matchesQuery q u)
      /\ found `sublist_of` getUsers s
      /\ (userSearchGet s (Some q)).2 = s)
  /\ userSearchGet sampleStore (Some "an")
     = (Sent (Render 200 "searchResults"
                {| vm_title := "Search results";
                   vm_users := Some [User (IdNumber 0) sampleAnna];
                   vm_user := None; vm_errors := None; vm_message := None |}),
        sampleStore).
Proof.
  split; [|by vm_compute].
  destruct (userSearchGet_users s q) as [Hu Hs].
  eexists. split; [exact Hu|]. split; [|split; [apply filter_bool_sublist | exact Hs]].
  intros u. by rewrite elem_of_filter_bool, matchesTerm_spec.
Qed.

Lemma no_match_filter s q :
  (forall u, u ∈ getUsers s -> ~ matchesQuery q u) <->
  List.filter (matchesTerm (toLowerCase (trim q))) (getUsers s) = [].
Proof.
  split.
  - intros H. destruct (List.filter _ _) as [|u l] eqn:E; [done|].
    assert (u ∈ List.filter (matchesTerm (toLowerCase (trim q))) (getUsers s)) as Hu
      by (rewrite E; left).
    apply elem_of_filter_bool in Hu as [Hin Hm].
    apply matchesTerm_spec in Hm. by destruct (H u Hin).
  - intros E u Hin Hm. apply matchesTerm_spec in Hm.
    assert (u ∈ List.filter (matchesTerm (toLowerCase (trim q))) (getUsers s)) as Hu
      by (by apply elem_of_filter_bool).
    rewrite E in Hu. inversion Hu.
Qed.

(** C8: a search whose query matches no stored record answers 404 with an
    empty list of users and the message; a search that matches at least one
    record answers 200 with the non-empty list of matches and no message. *)
Theorem search_zero_match_is_404 (s : store) (q : string) :
  ((forall u, u ∈ getUsers s -> ~ matchesQuery q u) ->
   userSearchGet s (Some q)
   = (Sent (Render 404 "searchResults"
              {| vm_title := "Search results"; vm_users := Some [];
                 vm_user := None; vm_errors := None;
                 vm_message := Some "404 - No users found." |}), s))
  /\ ((exists u, u ∈ getUsers s /\ matchesQuery q u) ->
      exists found : list user,
        found ≠ []
        /\ (forall u, u ∈ found <-> u ∈ getUsers s /\ matchesQuery q u)
        /\ userSearchGet s (Some q)
           = (Sent (Render 200 "searchResults"
                      {| vm_title := "Search results"; vm_users := Some found;
                         vm_user := None; vm_errors := None;
                         vm_message := None |}), s)).
Proof.
  split.
  - intros H%no_match_filter. unfold userSearchGet. by rewrite H.
  - intros [u [Hin Hm]].
    exists (List.filter (matchesTerm (toLowerCase (trim q))) (getUsers s)).
    assert (u ∈ List.filter (matchesTerm (toLowerCase (trim q))) (getUsers s)) as Hu
      by (apply elem_of_filter_bool; split; [done | by apply matchesTerm_spec]).
    split; [intros E; rewrite E in Hu; inversion Hu|].
    split; [intros v; by rewrite elem_of_filter_bool, matchesTerm_spec|].
    unfold userSearchGet.
    destruct (List.filter _ _) as [|v l]; [inversion Hu | done].
Qed.

Lemma search_zero_match_is_404_witness :
  userSearchGet sampleStore (Some "zz")
  = (Sent (Render 404 "searchResults"
             {| vm_title := "Search results"; vm_users := Some [];
                vm_user := None; vm_errors := None;
                vm_message := Some "404 - No users found." |}), sampleStore).
Proof.
  apply (proj1 (search_zero_match_is_404 sampleStore "zz")).
  apply no_match_filter. by vm_compute.
Defined.

(* ===================================================================== *)
(** * Further properties of the code *)
(* ===================================================================== *)

(** ** The store: one id at a time *)

Lemma inherited_proto_eq s s' k :
  storage_proto s' = storage_proto s -> inherited s' k = inherited s k.
Proof. intros H. unfold inherited. by rewrite H. Qed.

Lemma writeProperty_other s k u :
  k ≠ "__proto__" ->
  writeProperty s k u
  = {| this_storage := <[k := u]> (this_storage s);
       storage_proto := storage_proto s; this_id := this_id s |}.
Proof. intros Hk. unfold writeProperty. rewrite decide_False; [done|]. by intros [? _]. Qed.

(** X1: an operation on one id leaves the lookup of every id with another
    property key as it was: [updateUser] (for an id other than [__proto__]),
    [deleteUser], and [addUser], which writes under the counter. *)
Theorem operations_leave_other_ids (s : store) (id id' : jsid) (d : userData) :
  propertyKey id ≠ propertyKey id' ->
  (propertyKey id ≠ "__proto__" -> getUser (updateUser s id d) id' = getUser s id')
  /\ getUser (deleteUser s id) id' = getUser s id'
  /\ (id = IdNumber (this_id s) -> getUser (addUser s d) id' = getUser s id').
Proof.
  intros Hne. split; [|split].
  - intros Hp. unfold updateUser. rewrite writeProperty_other by done.
    unfold getUser, readProperty. simpl. by rewrite lookup_insert_ne.
  - unfold getUser, readProperty, deleteUser. simpl. by rewrite lookup_delete_ne.
  - intros ->. rewrite addUser_unfold. unfold getUser, readProperty. simpl.
    by rewrite lookup_insert_ne.
Qed.

Lemma operations_leave_other_ids_witness :
  getUser (updateUser sampleStore (IdString "1") sampleAnna) (IdString "0")
  = getUser sampleStore (IdString "0")
  /\ getUser (deleteUser sampleStore (IdString "1")) (IdString "0")
     = getUser sampleStore (IdString "0").
Proof.
  assert (propertyKey (IdString "1") ≠ propertyKey (IdString "0")) as Hne by done.
  destruct (operations_leave_other_ids sampleStore (IdString "1") (IdString "0")
              sampleAnna Hne) as [Hu [Hd _]].
  split; [apply Hu; done | exact Hd].
Defined.

(** X2: the counter value and its decimal text are the same key.  After
    [addUser] has filed a record under the number [n], an [updateUser] with
    the text of [n] (what a route parameter carries) replaces that record,
    and the record found under the number [n] then carries the text as its
    [id]; in a state reached by a run, the record with the number as [id] is
    no longer listed. *)
Theorem update_by_text_replaces_number_id (ops : list op) (d d' : userData) :
  let s := run constructor ops in
  let n := this_id s in
  let s' := updateUser (addUser s d) (IdString (pretty n)) d' in
  getUser (addUser s d) (IdString (pretty n)) = JUser (User (IdNumber n) d)
  /\ getUser s' (IdNumber n) = JUser (User (IdString (pretty n)) d')
  /\ User (IdNumber n) d ∉ getUsers s'.
Proof.
  intros s n s'. split; [|split].
  - rewrite addUser_unfold. unfold getUser, readProperty. simpl.
    by rewrite lookup_insert_eq.
  - change (getUser s' (IdNumber n)) with (getUser s' (IdString (pretty n))).
    apply getUser_updateUser.
  - intros Hin. apply elem_of_getUsers in Hin as [k Hk].
    assert (keysMatch s') as Hkeys.
    { unfold s'. apply keysMatch_writeProperty.
      apply (keysMatch_step s (Add d)). apply keysMatch_run, keysMatch_constructor. }
    pose proof (Hkeys k _ Hk) as Hkey. unfold idKey in Hkey. simpl in Hkey. subst k.
    unfold s', updateUser in Hk.
    rewrite writeProperty_other in Hk by apply (propertyKey_number_not_proto n).
    simpl in Hk. rewrite lookup_insert_eq in Hk. discriminate Hk.
Qed.

(** X3: deleting an id under which nothing is stored changes nothing: the
    store after [deleteUser] is the store before, and [userDeletePost] still
    answers with the redirect to [/]. *)
Theorem delete_unknown_id_is_noop (s : store) (id : jsid) :
  this_storage s !! propertyKey id = None ->
  deleteUser s id = s
  /\ userDeletePost s id = (Sent (Redirect 302 "/"), s).
Proof.
  intros H. assert (deleteUser s id = s) as Hs.
  { unfold deleteUser. rewrite delete_id by done. by destruct s. }
  split; [done|]. unfold userDeletePost. by rewrite Hs.
Qed.

Lemma delete_unknown_id_is_noop_witness :
  deleteUser sampleStore (IdString "7") = sampleStore
  /\ userDeletePost sampleStore (IdString "7") = (Sent (Redirect 302 "/"), sampleStore).
Proof. apply (delete_unknown_id_is_noop sampleStore (IdString "7")). by vm_compute. Defined.

Lemma length_getUsers s : List.length (getUsers s) = size (this_storage s).
Proof. unfold getUsers. by rewrite length_fmap, length_map_to_list. Qed.

(** X4: in a state reached by a run, [deleteUser(id)] removes from the list
    exactly the record whose id has the property key of [id]: the records
    listed afterwards are those listed before under another key, and the
    list gets shorter by one when a record was stored under [id] and keeps
    its length otherwise. *)
Theorem delete_removes_exactly_that_record (ops : list op) (id : jsid) :
  let s := run constructor ops in
  (forall u, u ∈ getUsers (deleteUser s id) <->
             u ∈ getUsers s /\ idKey u ≠ propertyKey id)
  /\ List.length (getUsers (deleteUser s id))
     = match this_storage s !! propertyKey id with
       | Some _ => pred (List.length (getUsers s))
       | None => List.length (getUsers s)
       end.
Proof.
  intros s. assert (keysMatch s) as Hkeys by apply keysMatch_run, keysMatch_constructor.
  split.
  - intros u. rewrite !elem_of_getUsers. unfold deleteUser. simpl. split.
    + intros [k Hk]. apply lookup_delete_Some in Hk as [Hne Hk].
      split; [eauto|]. by rewrite (Hkeys k u Hk).
    + intros [[k Hk] Hne]. exists k. apply lookup_delete_Some.
      split; [|done]. by rewrite <- (Hkeys k u Hk).
  - rewrite !length_getUsers. unfold deleteUser. simpl. rewrite map_size_delete.
    by destruct (this_storage s !! propertyKey id).
Qed.

(** X5: in a state reached by a run, [updateUser(id, fields)] for an id
    other than [__proto__] changes the list in one place only: afterwards it
    holds the new record together with the records listed before under
    another key, and it is longer by one exactly when nothing was stored
    under [id]. *)
Theorem update_replaces_exactly_that_record (ops : list op) (id : jsid) (d : userData) :
  propertyKey id ≠ "__proto__" ->
  let s := run constructor ops in
  (forall u, u ∈ getUsers (updateUser s id d) <->
             u = User id d \/ (u ∈ getUsers s /\ idKey u ≠ propertyKey id))
  /\ List.length (getUsers (updateUser s id d))
     = match this_storage s !! propertyKey id with
       | Some _ => List.length (getUsers s)
       | None => S (List.length (getUsers s))
       end.
Proof.
  intros Hp s. assert (keysMatch s) as Hkeys by apply keysMatch_run, keysMatch_constructor.
  unfold updateUser. rewrite writeProperty_other by done. split.
  - intros u. rewrite !elem_of_getUsers. simpl. split.
    + intros [k Hk]. rewrite lookup_insert in Hk. case_decide as E.
      * left. by injection Hk as <-.
      * right. split; [eauto|]. by rewrite (Hkeys k u Hk).
    + intros [-> | [[k Hk] Hne]].
      * exists (propertyKey id). apply lookup_insert_eq.
      * exists k. rewrite lookup_insert_ne; [done|]. by rewrite <- (Hkeys k u Hk).
  - rewrite !length_getUsers. simpl. rewrite map_size_insert.
    by destruct (this_storage s !! propertyKey id).
Qed.

Lemma update_replaces_exactly_that_record_witness :
  List.length (getUsers (updateUser (run constructor sampleOps) (IdString "5") sampleAnna))
  = match this_storage (run constructor sampleOps) !! "5" with
    | Some _ => List.length (getUsers (run constructor sampleOps))
    | None => S (List.length (getUsers (run constructor sampleOps)))
    end.
Proof.
  apply (proj2 (update_replaces_exactly_that_record sampleOps (IdString "5") sampleAnna
                  ltac:(done))).
Defined.

(** ** The counter *)

Lemma this_id_step_add s o :
  this_id (step s o) = this_id s + (if isAdd o then 1 else 0).
Proof.
  destruct o as [d | id d | id]; simpl.
  - by rewrite this_id_writeProperty.
  - unfold updateUser. rewrite this_id_writeProperty. lia.
  - lia.
Qed.

Lemma this_id_run_adds s ops :
  this_id (run s ops) = this_id s + N.of_nat (adds ops).
Proof.
  revert s. induction ops as [|o ops IH]; intros s; [unfold adds; simpl; lia|].
  change (run s (o :: ops)) with (run (step s o) ops).
  rewrite IH, this_id_step_add. unfold adds. simpl.
  destruct (isAdd o); simpl; lia.
Qed.

Lemma assigned_consecutive s ops :
  assigned s ops = (fun i => this_id s + N.of_nat i) <$> seq 0 (adds ops).
Proof.
  revert s. induction ops as [|o ops IH]; intros s; [done|].
  destruct o as [d | id d | id]; cbn [assigned]; rewrite IH, this_id_step_add;
    unfold adds; cbn [List.filter isAdd List.length seq fmap list_fmap].
  - f_equal; [f_equal; lia|]. rewrite <- fmap_S_seq, <- list_fmap_compose.
    apply list_fmap_ext. intros _ i _. simpl. lia.
  - apply list_fmap_ext. intros _ i _. simpl. lia.
  - apply list_fmap_ext. intros _ i _. simpl. lia.
Qed.

(** X6: the counter counts the calls of [addUser] and nothing else: after a
    run from the new store it equals the number of adds, whatever updates
    and deletes the run contains, and the ids handed out are 0, 1, 2, ... in
    this order. *)
Theorem counter_counts_adds (ops : list op) :
  this_id (run constructor ops) = N.of_nat (adds ops)
  /\ assigned constructor ops = N.of_nat <$> seq 0 (adds ops).
Proof.
  split.
  - by rewrite this_id_run_adds.
  - rewrite assigned_consecutive. apply list_fmap_ext. intros _ i _. simpl. lia.
Qed.

(** ** addUser over a record filed by updateUser *)

(** X7: [addUser] does not look at what is stored under the counter.  When
    [updateUser] has filed a record under the text of the next id, the
    following [addUser] replaces it: the lookup returns the added record, and
    the list is as long as it was before the add.  When nothing is stored
    under the counter, the list grows by one. *)
Theorem add_overwrites_record_under_counter (s : store) (d d' : userData) :
  let n := this_id s in
  let s1 := updateUser s (IdString (pretty n)) d in
  getUser s1 (IdNumber n) = JUser (User (IdString (pretty n)) d)
  /\ getUser (addUser s1 d') (IdNumber n) = JUser (User (IdNumber n) d')
  /\ List.length (getUsers (addUser s1 d')) = List.length (getUsers s1)
  /\ List.length (getUsers (addUser s d'))
     = match this_storage s !! pretty n with
       | Some _ => List.length (getUsers s)
       | None => S (List.length (getUsers s))
       end.
Proof.
  intros n s1.
  assert (this_id s1 = n) as Hn by apply this_id_writeProperty.
  assert (this_storage s1 !! pretty n = Some (User (IdString (pretty n)) d)) as Hs1.
  { unfold s1, updateUser.
    rewrite writeProperty_other by apply (propertyKey_number_not_proto n).
    simpl. apply lookup_insert_eq. }
  split; [|split; [|split]].
  - change (getUser s1 (IdNumber n)) with (getUser s1 (IdString (pretty n))).
    apply getUser_updateUser.
  - rewrite addUser_unfold, Hn. unfold getUser, readProperty. simpl.
    by rewrite lookup_insert_eq.
  - rewrite !length_getUsers, addUser_unfold, Hn. simpl.
    by rewrite map_size_insert, Hs1.
  - rewrite !length_getUsers, addUser_unfold. simpl. rewrite map_size_insert.
    subst n. by destruct (this_storage s !! pretty (this_id s)).
Qed.

(** ** The id [__proto__] *)

Lemma no_own_proto_step s o :
  this_storage s !! "__proto__" = None ->
  this_storage (step s o) !! "__proto__" = None.
Proof.
  intros H. destruct o as [d | id d | id]; cbn [step].
  - rewrite addUser_unfold. simpl. rewrite lookup_insert_ne; [done|].
    apply (propertyKey_number_not_proto (this_id s)).
  - unfold updateUser, writeProperty. case_decide as Hk; simpl; [done|].
    rewrite lookup_insert_ne; [done|]. intros E. apply Hk. by rewrite E.
  - unfold deleteUser. simpl. rewrite lookup_delete. by case_decide.
Qed.

Lemma no_own_proto_run s ops :
  this_storage s !! "__proto__" = None ->
  this_storage (run s ops) !! "__proto__" = None.
Proof.
  revert s. induction ops as [|o ops IH]; intros s H; [done|].
  apply (IH (step s o)). by apply no_own_proto_step.
Qed.

(** X8: in a state reached by a run, [updateUser('__proto__', fields)] files
    no record: the list of users is unchanged.  The assignment replaces the
    prototype of the storage object instead, so afterwards the lookup of
    [__proto__] returns the record, and the lookup of a field name such as
    [firstName], when no record is stored under that name, returns the field
    of that record rather than [undefined]. *)
Theorem update_proto_files_no_record (ops : list op) (d : userData) :
  let s := run constructor ops in
  let s' := updateUser s (IdString "__proto__") d in
  getUsers s' = getUsers s
  /\ getUser s' (IdString "__proto__") = JUser (User (IdString "__proto__") d)
  /\ getUser s' (IdString "firstName")
     = match this_storage s !! "firstName" with
       | Some u => JUser u
       | None => JString (firstName d)
       end.
Proof.
  intros s s'.
  assert (this_storage s !! "__proto__" = None) as Hown by by apply no_own_proto_run.
  assert (s' = {| this_storage := this_storage s;
                  storage_proto := Some (User (IdString "__proto__") d);
                  this_id := this_id s |}) as ->.
  { unfold s', updateUser, writeProperty. simpl. by rewrite decide_True. }
  split; [done|]. split.
  - unfold getUser, readProperty. simpl. by rewrite Hown.
  - unfold getUser, readProperty. simpl. by destruct (this_storage s !! "firstName").
Qed.

(** ** What validateUser accepts *)

Lemma check_nil ok p m : check ok p m = [] <-> ok = true.
Proof. unfold check. by destruct ok. Qed.

Lemma isAlpha_true s :
  isAlpha s = true <-> s ≠ "" /\ forallb_string isAsciiLetter s = true.
Proof.
  unfold isAlpha. rewrite andb_true_iff, negb_true_iff, bool_decide_eq_false. tauto.
Qed.

Lemma isLength_true lo hi s :
  isLength lo (Some hi) s = true
  <-> (N.to_nat lo <= String.length s <= N.to_nat hi)%nat.
Proof.
  unfold isLength. rewrite andb_true_iff, !N.leb_le. lia.
Qed.

Lemma nameChain_nil p label v :
  nameChain p label v = [] <-> validName (trim (toString v)).
Proof.
  unfold nameChain, validName.
  rewrite app_nil, !check_nil, isAlpha_true, isLength_true.
  change (N.to_nat 1) with 1%nat. change (N.to_nat 10) with 10%nat. split.
  - tauto.
  - intros [Hl Hlen]. repeat split; try tauto; try lia.
    intros E. rewrite E in Hlen. simpl in Hlen. lia.
Qed.

Lemma ageChain_nil v : ageChain v = [] <-> validAge v.
Proof.
  unfold ageChain, validAge. destruct v as [a|]; [|by split].
  rewrite check_nil. unfold isInt. split.
  - intros H a' [= <-]. destruct (parseInt (trim a)) as [n|]; [|done].
    exists n. split; [done|]. apply andb_true_iff in H. lia.
  - intros H. destruct (H a eq_refl) as [n [-> Hn]].
    apply andb_true_iff. lia.
Qed.

Lemma bioChain_nil v : bioChain v = [] <-> validBio v.
Proof.
  unfold bioChain, validBio. destruct v as [t|]; [|by split].
  rewrite check_nil, isLength_true.
  change (N.to_nat 0) with 0%nat. change (N.to_nat 200) with 200%nat. split.
  - intros H t' [= <-]. lia.
  - intros H. specialize (H t eq_refl). lia.
Qed.

Lemma validateUser_nil (isEmail : string -> bool) (b : body) :
  validateUser isEmail b = [] <->
  validName (trim (toString (body_firstName b)))
  /\ validName (trim (toString (body_lastName b)))
  /\ isEmail (trim (toString (body_email b))) = true
  /\ validAge (body_age b)
  /\ validBio (body_bio b).
Proof.
  unfold validateUser, emailChain.
  by rewrite !app_nil, !nameChain_nil, check_nil, ageChain_nil, bioChain_nil.
Qed.

(** X9: for a body whose fields are each a string or missing,
    [validateUser] reports no error exactly when both names are 1 to 10
    letters after trimming, the trimmed email passes [isEmail], the age is
    missing or a text that [parseInt] reads as a number from 18 to 200, and
    the bio is missing or at most 200 long after trimming. *)
Theorem validateUser_accepts_iff (isEmail : string -> bool) (b : body) :
  validateUser isEmail b = [] <->
  validName (trim (toString (body_firstName b)))
  /\ validName (trim (toString (body_lastName b)))
  /\ isEmail (trim (toString (body_email b))) = true
  /\ validAge (body_age b)
  /\ validBio (body_bio b).
Proof. apply validateUser_nil. Qed.

(** X10: the chains do not stop at the first failure.  A name that is missing
    or empty after trimming is reported twice, first as not alphabetic and
    then as too short; a name of more than 10 letters is reported once, for
    its length only. *)
Theorem empty_name_reported_twice (p label : string) (v : option string) :
  (String.length (trim (toString v)) = 0%nat ->
   nameChain p label v
   = [ValidationError p (label +:+ " " +:+ alphaErr);
      ValidationError p (label +:+ " " +:+ lengthErr)])
  /\ (forallb_string isAsciiLetter (trim (toString v)) = true ->
      (10 < String.length (trim (toString v)))%nat ->
      nameChain p label v = [ValidationError p (label +:+ " " +:+ lengthErr)]).
Proof.
  unfold nameChain. split.
  - intros H. destruct (trim (toString v)); [done | discriminate H].
  - intros Hl Hlen.
    assert (isAlpha (trim (toString v)) = true) as ->.
    { apply isAlpha_true. split; [|done]. intros E. rewrite E in Hlen. simpl in Hlen. lia. }
    assert (isLength 1 (Some 10) (trim (toString v)) = false) as ->; [|done].
    apply not_true_is_false. rewrite isLength_true. change (N.to_nat 10) with 10%nat. lia.
Qed.

Lemma empty_name_reported_twice_witness :
  nameChain "firstName" "First name" None
  = [ValidationError "firstName" "First name must only contain letters.";
     ValidationError "firstName" "First name must be between 1 and 10 characters."]
  /\ nameChain "lastName" "Last name" (Some " Wolfeschlegel ")
     = [ValidationError "lastName" "Last name must be between 1 and 10 characters."].
Proof.
  split.
  - apply (proj1 (empty_name_reported_twice "firstName" "First name" None)). reflexivity.
  - apply (proj2 (empty_name_reported_twice "lastName" "Last name"
                    (Some " Wolfeschlegel "))); [reflexivity | simpl; lia].
Defined.

(** X11: [optional()] skips a missing age only.  An age field that is sent
    but empty after trimming, as an empty form input is, fails the age chain:
    the age message is among the errors, the create handler answers 400 and
    the store is not changed. *)
Theorem blank_age_is_rejected (isEmail : string -> bool) (s : store) (b : body) (a : string) :
  body_age b = Some a ->
  trim a = "" ->
  ValidationError "age" "Age Must be a number between 18 and 200" ∈ validateUser isEmail b
  /\ (exists errs,
        usersCreatePost isEmail s b
        = (Sent (Render 400 "createUser"
                   {| vm_title := "Create user"; vm_users := None; vm_user := None;
                      vm_errors := Some errs; vm_message := None |}), s)).
Proof.
  intros Ha Ht.
  assert (ValidationError "age" "Age Must be a number between 18 and 200"
            ∈ validateUser isEmail b) as Hin.
  { unfold validateUser. rewrite !elem_of_app. right. right. right. left.
    unfold ageChain. rewrite Ha, Ht. apply list_elem_of_singleton. reflexivity. }
  split; [done|]. eexists. apply usersCreatePost_rejects.
  intros E. rewrite E in Hin. inversion Hin.
Qed.

Lemma blank_age_is_rejected_witness :
  ValidationError "age" "Age Must be a number between 18 and 200"
    ∈ validateUser isEmailSample formBlankAge
  /\ (exists errs,
        usersCreatePost isEmailSample sampleStore formBlankAge
        = (Sent (Render 400 "createUser"
                   {| vm_title := "Create user"; vm_users := None; vm_user := None;
                      vm_errors := Some errs; vm_message := None |}), sampleStore)).
Proof.
  apply (blank_age_is_rejected isEmailSample sampleStore formBlankAge "  ");
    reflexivity.
Defined.

(** ** Reading the age *)

Lemma code_pretty_N_char y : y < 10 -> code (pretty_N_char y) - 48 = y.
Proof.
  intros Hy.
  assert (y = 0 \/ y = 1 \/ y = 2 \/ y = 3 \/ y = 4 \/ y = 5 \/ y = 6 \/ y = 7
          \/ y = 8 \/ y = 9) as Hcases by lia.
  repeat (destruct Hcases as [-> | Hcases]; [reflexivity|]). by subst.
Qed.

Lemma digitsPrefix_digit acc c s :
  isDigit c = true ->
  digitsPrefix acc (String c s)
  = digitsPrefix (Some (10 * default 0%Z acc + Z.of_N (code c - 48))%Z) s.
Proof. intros H. simpl. by rewrite H. Qed.

Lemma digitsPrefix_pretty_N_go x s :
  0 < x -> digitsPrefix None (pretty_N_go x s) = digitsPrefix (Some (Z.of_N x)) s.
Proof.
  revert s. induction (N.lt_wf_0 x) as [x _ IH]. intros s Hx.
  rewrite pretty_N_go_step by done.
  pose proof (N.mod_lt x 10 ltac:(lia)) as Hmod.
  pose proof (N.div_mod x 10 ltac:(lia)) as Hdiv.
  destruct (decide (x `div` 10 = 0)) as [E | Hq].
  - rewrite E, pretty_N_go_0, digitsPrefix_digit by apply pretty_N_char_digit.
    rewrite code_pretty_N_char by done. simpl. f_equal. f_equal. lia.
  - rewrite IH by (try apply N.div_lt; lia).
    rewrite digitsPrefix_digit by apply pretty_N_char_digit.
    rewrite code_pretty_N_char by done. simpl default. f_equal. f_equal. lia.
Qed.

(** Reading the decimal text of a number gives the number back. *)
Lemma digitsPrefix_pretty (n : N) : digitsPrefix None (pretty n) = Some (Z.of_N n).
Proof.
  unfold pretty, pretty_N. case_decide as E; [by subst|].
  rewrite digitsPrefix_pretty_N_go by lia. done.
Qed.

Lemma digitsPrefix_app acc s j :
  allDigits s -> digitsPrefix acc (s +:+ j) = digitsPrefix (digitsPrefix acc s) j.
Proof.
  unfold allDigits. revert acc. induction s as [|c s IH]; intros acc H; [done|].
  simpl in H. apply andb_true_iff in H as [Hc Hs].
  change (String c s +:+ j) with (String c (s +:+ j)).
  rewrite !digitsPrefix_digit by done. by apply IH.
Qed.

Lemma digitsPrefix_stop acc j : noLeadingDigit j -> digitsPrefix acc j = acc.
Proof. destruct j as [|c j]; [done|]. simpl. by intros ->. Qed.

Lemma trimEnd_app s j : noWhiteSpace s -> trimEnd (s +:+ j) = s +:+ trimEnd j.
Proof.
  unfold noWhiteSpace. induction s as [|c s IH]; [done|]. simpl.
  intros [Hc Hs]%andb_true_iff. rewrite (IH Hs).
  change (String c s +:+ trimEnd j) with (String c (s +:+ trimEnd j)).
  destruct (s +:+ trimEnd j); [|done]. by destruct (isWhiteSpace c).
Qed.

Lemma trimEnd_noLeadingDigit j : noLeadingDigit j -> noLeadingDigit (trimEnd j).
Proof.
  destruct j as [|c j]; [done|]. simpl. intros Hc.
  destruct (trimEnd j); [by destruct (isWhiteSpace c) | done].
Qed.

Lemma digits_noWhiteSpace s : allDigits s -> noWhiteSpace s.
Proof.
  unfold allDigits, noWhiteSpace. induction s as [|c s IH]; [done|]. simpl.
  intros [Hc Hs]%andb_true_iff. by rewrite (isDigit_not_space _ Hc), (IH Hs).
Qed.

Lemma parseInt_digit_first c r :
  isDigit c = true -> parseInt (String c r) = digitsPrefix None (String c r).
Proof.
  intros Hc. unfold parseInt. cbn [trimStart]. rewrite (isDigit_not_space _ Hc).
  by destruct c as [[] [] [] [] [] [] [] []].
Qed.

(** [parseInt] of a trimmed text that starts with the decimal text of [n]
    and does not go on with a digit is [n]. *)
Lemma parseInt_trim_pretty (n : N) (junk : string) :
  noLeadingDigit junk -> parseInt (trim (pretty n +:+ junk)) = Some (Z.of_N n).
Proof.
  intros Hj. pose proof (pretty_N_digits n) as Hd.
  pose proof (digitsPrefix_pretty n) as Hval.
  assert (trim (pretty n +:+ junk) = pretty n +:+ trimEnd junk) as ->.
  { unfold trim. destruct (pretty n) as [|c r] eqn:E; [discriminate Hval|].
    assert (isDigit c = true) as Hc by (unfold allDigits in Hd; simpl in Hd;
                                        by apply andb_true_iff in Hd as [? _]).
    change (String c r +:+ junk) with (String c (r +:+ junk)).
    cbn [trimStart]. rewrite (isDigit_not_space _ Hc).
    change (String c (r +:+ junk)) with (String c r +:+ junk).
    by apply trimEnd_app, digits_noWhiteSpace. }
  destruct (pretty n) as [|c r] eqn:E; [discriminate Hval|].
  assert (isDigit c = true) as Hc by (unfold allDigits in Hd; simpl in Hd;
                                      by apply andb_true_iff in Hd as [? _]).
  change (String c r +:+ trimEnd junk) with (String c (r +:+ trimEnd junk)).
  rewrite parseInt_digit_first by done.
  change (String c (r +:+ trimEnd junk)) with (String c r +:+ trimEnd junk).
  rewrite digitsPrefix_app by done. rewrite Hval.
  by apply digitsPrefix_stop, trimEnd_noLeadingDigit.
Qed.

(** X12: the age chain reads the age with [parseInt], which stops at the
    first character that is not a digit.  An age text made of the decimal
    text of a number from 18 to 200 followed by anything that does not start
    with a digit passes the chain, and the record gets that number as its
    age. *)
Theorem age_with_trailing_text_accepted (b : body) (n : N) (junk : string) :
  18 <= n <= 200 ->
  noLeadingDigit junk ->
  body_age b = Some (pretty n +:+ junk) ->
  ageChain (body_age b) = [] /\ age (validatedBody b) = Some (Z.of_N n).
Proof.
  intros Hn Hj Hb. unfold validatedBody. simpl. rewrite Hb. simpl.
  rewrite parseInt_trim_pretty by done. split; [|done].
  apply check_nil. unfold isInt. apply andb_true_iff. lia.
Qed.

Lemma age_with_trailing_text_accepted_witness :
  ageChain (body_age formAgeYears) = []
  /\ age (validatedBody formAgeYears) = Some 41%Z.
Proof.
  apply (age_with_trailing_text_accepted formAgeYears 41 " years ");
    [lia | reflexivity | reflexivity].
Defined.

(** ** Search: the query *)

Lemma includes_empty hay : includes hay "" = true.
Proof. by destruct hay. Qed.

Lemma filter_bool_all {A} (f : A -> bool) (l : list A) :
  (forall x, f x = true) -> List.filter f l = l.
Proof.
  intros H. induction l as [|x l IH]; [done|]. simpl. by rewrite H, IH.
Qed.

(** X13: a query that is empty after trimming matches every record: the
    search hands all the stored users to the view, with status 200 as soon
    as the store holds a record. *)
Theorem blank_query_returns_all (s : store) (q : string) :
  trim q = "" ->
  responseUsers (userSearchGet s (Some q)).1 = Some (getUsers s)
  /\ (getUsers s ≠ [] ->
      userSearchGet s (Some q)
      = (Sent (Render 200 "searchResults"
                 {| vm_title := "Search results"; vm_users := Some (getUsers s);
                    vm_user := None; vm_errors := None; vm_message := None |}), s)).
Proof.
  intros Hq.
  assert (List.filter (matchesTerm (toLowerCase (trim q))) (getUsers s) = getUsers s) as Hall.
  { apply filter_bool_all. intros u. unfold matchesTerm. rewrite Hq. simpl.
    by rewrite includes_empty. }
  split.
  - destruct (userSearchGet_users s q) as [-> _]. by rewrite Hall.
  - intros Hne. unfold userSearchGet. rewrite Hall.
    destruct (getUsers s); [done | done].
Qed.

Lemma blank_query_returns_all_witness :
  userSearchGet sampleStore (Some "  ")
  = (Sent (Render 200 "searchResults"
             {| vm_title := "Search results"; vm_users := Some (getUsers sampleStore);
                vm_user := None; vm_errors := None; vm_message := None |}), sampleStore).
Proof.
  apply (proj2 (blank_query_returns_all sampleStore "  " eq_refl)). by vm_compute.
Defined.

Lemma isWhiteSpace_lowerChar c : isWhiteSpace (lowerChar c) = isWhiteSpace c.
Proof. by destruct c as [[] [] [] [] [] [] [] []]; vm_compute. Qed.

Lemma trimStart_toLowerCase s : trimStart (toLowerCase s) = toLowerCase (trimStart s).
Proof.
  induction s as [|c s IH]; [done|]. simpl. rewrite isWhiteSpace_lowerChar.
  by destruct (isWhiteSpace c).
Qed.

Lemma trimEnd_toLowerCase s : trimEnd (toLowerCase s) = toLowerCase (trimEnd s).
Proof.
  induction s as [|c s IH]; [done|]. simpl. rewrite IH, isWhiteSpace_lowerChar.
  destruct (trimEnd s); simpl; [by destruct (isWhiteSpace c) | done].
Qed.

Lemma trim_toLowerCase s : trim (toLowerCase s) = toLowerCase (trim s).
Proof. unfold trim. by rewrite trimStart_toLowerCase, trimEnd_toLowerCase. Qed.

(** X14: the search does not see the case of the query: two queries with the
    same lower-case form get the same response. *)
Theorem search_ignores_query_case (s : store) (q1 q2 : string) :
  toLowerCase q1 = toLowerCase q2 ->
  userSearchGet s (Some q1) = userSearchGet s (Some q2).
Proof.
  intros H. unfold userSearchGet. by rewrite <- !trim_toLowerCase, H.
Qed.

Lemma search_ignores_query_case_witness :
  userSearchGet sampleStore (Some " aN") = userSearchGet sampleStore (Some " An").
Proof. apply (search_ignores_query_case sampleStore " aN" " An"). reflexivity. Defined.

(** ** The router: what a request can do to the store *)

Lemma handle_effect (isEmail : string -> bool) (s : store) (req : request) :
  (handle isEmail usersRouter s req).2 = s
  \/ (req_method req = POST
      /\ validateUser isEmail (req_body req) = []
      /\ ((handle isEmail usersRouter s req).2 = addUser s (validatedBody (req_body req))
          \/ exists id, (handle isEmail usersRouter s req).2
                        = updateUser s (IdString id) (validatedBody (req_body req)))).
Proof.
  destruct req as [m p q b]. destruct p as [|a [|a' [|a'' p]]]; destruct m;
    cbn; repeat (case_bool_decide; cbn); auto;
    unfold usersCreatePost, usersUpdatePost, userSearchGet;
    try (destruct q; [destruct (0 <? _)%nat|]; cbn; by left);
    destruct (bool_decide (validateUser isEmail b = [])) eqn:E; cbn; auto;
    apply bool_decide_eq_true in E; right; eauto 10.
Qed.

(** X15: a request changes the store only if it is a POST whose body passes
    [validateUser]: every GET request, and every request whose body fails
    validation, whatever its path, leaves the store as it was. *)
Theorem only_valid_posts_change_store (isEmail : string -> bool) (s : store) (req : request) :
  req_method req = GET \/ validateUser isEmail (req_body req) ≠ [] ->
  (handle isEmail usersRouter s req).2 = s.
Proof.
  intros H. destruct (handle_effect isEmail s req) as [Hs | [Hm [Hv _]]]; [done|].
  destruct H as [Hget | Hbad]; [congruence | done].
Qed.

Lemma only_valid_posts_change_store_witness :
  (handle isEmailSample usersRouter sampleStore
     (Request POST ["0"; "update"] None formBob7)).2 = sampleStore.
Proof.
  apply (only_valid_posts_change_store isEmailSample sampleStore
           (Request POST ["0"; "update"] None formBob7)).
  right. by vm_compute.
Defined.

Lemma written_record_origin (isEmail : string -> bool) s req k u :
  this_storage (handle isEmail usersRouter s req).2 !! k = Some u ->
  (exists k', this_storage s !! k' = Some u) \/ acceptedBy isEmail [req] u.
Proof.
  assert (forall key id,
            this_storage (writeProperty s key (User id (validatedBody (req_body req)))) !! k
            = Some u ->
            (exists k', this_storage s !! k' = Some u)
            \/ user_data u = validatedBody (req_body req)) as Hw.
  { intros key id. unfold writeProperty. case_decide; simpl; [eauto|].
    rewrite lookup_insert. case_decide; [|eauto]. intros [= <-]. by right. }
  destruct (handle_effect isEmail s req) as [-> | (Hm & Hv & [-> | [id ->]])]; [eauto| |].
  - unfold addUser. simpl. intros Hk. destruct (Hw _ _ Hk) as [? | Hd]; [by left|].
    right. exists req. split; [left|done].
  - intros Hk. destruct (Hw _ _ Hk) as [? | Hd]; [by left|].
    right. exists req. split; [left|done].
Qed.

Lemma served_record_origin (isEmail : string -> bool) reqs s k u :
  this_storage (serve isEmail s reqs) !! k = Some u ->
  (exists k', this_storage s !! k' = Some u) \/ acceptedBy isEmail reqs u.
Proof.
  revert s k. induction reqs as [|r reqs IH]; intros s k Hk; [eauto|].
  destruct (IH (handle isEmail usersRouter s r).2 k Hk) as [[k' Hk'] | (req & Hin & H)].
  - destruct (written_record_origin isEmail s r k' u Hk') as [? | (req & Hin & H)];
      [by left|].
    right. exists req. split; [|done].
    apply list_elem_of_singleton in Hin as ->. left.
  - right. exists req. split; [by right | done].
Qed.

(** X16: every listed user comes from an accepted submission: whatever
    requests the application has served since the store was constructed, the
    data of each listed user is what one of the served POST requests carried
    in its body after sanitising, and that body passed [validateUser]. *)
Theorem served_records_come_from_accepted_bodies (isEmail : string -> bool)
    (reqs : list request) (u : user) :
  u ∈ getUsers (serve isEmail constructor reqs) ->
  acceptedBy isEmail reqs u.
Proof.
  intros [k Hk]%elem_of_getUsers.
  destruct (served_record_origin isEmail reqs constructor k u Hk) as [[k' Hk'] | H];
    [|done].
  unfold constructor in Hk'. simpl in Hk'. by rewrite lookup_empty in Hk'.
Qed.

Lemma served_records_come_from_accepted_bodies_witness :
  acceptedBy isEmailSample sampleRequests
    (User (IdString "0")
       {| firstName := "Carol"; lastName := "Diaz"; email := "carol@example.com";
          age := Some 41%Z; bio := None |}).
Proof.
  apply (served_records_come_from_accepted_bodies isEmailSample sampleRequests).
  vm_compute. constructor.
Defined.

Lemma stored_handle isEmail s req k :
  is_Some (this_storage s !! k) ->
  is_Some (this_storage (handle isEmail usersRouter s req).2 !! k).
Proof.
  intros Hk.
  assert (forall id d, is_Some (this_storage (writeProperty s id d) !! k)) as Hw.
  { intros id d. unfold writeProperty. case_decide; simpl; [done|].
    rewrite lookup_insert. by case_decide. }
  destruct (handle_effect isEmail s req) as [-> | (_ & _ & [-> | [id ->]])]; [done| |].
  - unfold addUser. simpl. apply Hw.
  - apply Hw.
Qed.

Lemma length_writeProperty s k u :
  (List.length (getUsers s) <= List.length (getUsers (writeProperty s k u)))%nat.
Proof.
  rewrite !length_getUsers. unfold writeProperty. case_decide; simpl; [done|].
  rewrite map_size_insert. destruct (this_storage s !! k); simpl; lia.
Qed.

Lemma length_handle isEmail s req :
  (List.length (getUsers s)
   <= List.length (getUsers (handle isEmail usersRouter s req).2))%nat.
Proof.
  destruct (handle_effect isEmail s req) as [-> | (_ & _ & [-> | [id ->]])]; [done| |].
  - apply (length_writeProperty s (propertyKey (IdNumber (this_id s)))).
  - apply length_writeProperty.
Qed.

(** X17: no request removes a record.  The delete route has no callback and
    no other handler deletes, so a key under which a record is stored stays
    in use whatever requests follow, and the list of users never gets
    shorter. *)
Theorem no_request_removes_a_record (isEmail : string -> bool)
    (s : store) (reqs : list request) :
  (forall k, is_Some (this_storage s !! k) ->
             is_Some (this_storage (serve isEmail s reqs) !! k))
  /\ (List.length (getUsers s) <= List.length (getUsers (serve isEmail s reqs)))%nat.
Proof.
  revert s. induction reqs as [|r reqs IH]; intros s; [done|].
  destruct (IH (handle isEmail usersRouter s r).2) as [Hkeys Hlen]. split.
  - intros k Hk. apply Hkeys. by apply stored_handle.
  - etrans; [apply (length_handle isEmail s r) | exact Hlen].
Qed.

Lemma no_request_removes_a_record_witness :
  is_Some (this_storage
             (serve isEmailSample sampleStore
                [Request POST ["0"; "delete"] None formCarol;
                 Request POST ["0"; "update"] None formCarol]) !! "0").
Proof.
  apply (proj1 (no_request_removes_a_record isEmailSample sampleStore
                  [Request POST ["0"; "delete"] None formCarol;
                   Request POST ["0"; "update"] None formCarol])).
  eexists. vm_compute. reflexivity.
Defined.

(** ** The router: which requests throw *)

(** X18: no handler but the search handler throws: a request whose handler
    throws asks for the path [/search] (in any letter case) and is not a
    POST, and the store is as it was before the request. *)
Theorem only_search_route_throws (isEmail : string -> bool)
    (s : store) (req : request) (e : string) :
  (handle isEmail usersRouter s req).1 = Handled (Thrown e) ->
  (exists seg, req_path req = [seg] /\ toLowerCase seg = "search")
  /\ req_method req ≠ POST
  /\ (handle isEmail usersRouter s req).2 = s.
Proof.
  destruct req as [m p q b].
  destruct p as [|a [|a' [|a'' p]]]; destruct m;
    cbn; repeat (case_bool_decide; cbn); try done;
    unfold usersCreatePost, usersUpdatePost, userSearchGet;
    try (destruct (bool_decide (validateUser isEmail b = [])); cbn; done).
  all: destruct q; [by destruct (0 <? _)%nat|]; cbn; intros _.
  all: split; [|done]; eexists; split; [reflexivity|].
  all: match goal with H : _ = toLowerCase _ |- _ => by rewrite <- H end.
Qed.

Lemma only_search_route_throws_witness :
  (exists seg, ["Search"] = [seg] /\ toLowerCase seg = "search")
  /\ GET ≠ POST
  /\ (handle isEmailSample usersRouter sampleStore
        (Request GET ["Search"] None formCarol)).2 = sampleStore.
Proof.
  apply (only_search_route_throws isEmailSample sampleStore
           (Request GET ["Search"] None formCarol)
           "TypeError: Cannot read properties of undefined (reading 'trim')").
  reflexivity.
Defined.

(** ** The router in routes/usersRouter.js *)

(** X19: the update routes of this router have no [:id] segment, so
    [req.params.id] is [undefined]: a valid [POST /update] files the record
    under the key [undefined], with [undefined] as its [id], whatever the
    store holds, and [GET /update] shows the record stored under that key. *)
Theorem early_router_updates_key_undefined (isEmail : string -> bool)
    (s : store) (q : option string) (b : body) :
  validateUser isEmail b = [] ->
  handle isEmail usersRouterEarly s (Request POST ["update"] q b)
  = (Handled (Sent (Redirect 302 "/")), updateUser s IdUndefined (validatedBody b))
  /\ getUser (updateUser s IdUndefined (validatedBody b)) (IdString "undefined")
     = JUser (User IdUndefined (validatedBody b))
  /\ handle isEmail usersRouterEarly s (Request GET ["update"] q b)
     = (Handled (Sent (Render 200 "updateUser"
                         {| vm_title := "Update user"; vm_users := None;
                            vm_user := Some (getUser s (IdString "undefined"));
                            vm_errors := None; vm_message := None |})), s).
Proof.
  intros Hv. split; [|split].
  - cbn. unfold usersUpdatePost. by rewrite Hv.
  - apply (getUser_updateUser s IdUndefined).
  - done.
Qed.

Lemma early_router_updates_key_undefined_witness :
  handle isEmailSample usersRouterEarly sampleStore (Request POST ["update"] None formCarol)
  = (Handled (Sent (Redirect 302 "/")),
     updateUser sampleStore IdUndefined (validatedBody formCarol)).
Proof.
  apply (early_router_updates_key_undefined isEmailSample sampleStore None formCarol).
  reflexivity.
Defined.

(** ** Create, then show and list *)

Lemma pretty_N_nonempty (n : N) : pretty n ≠ "".
Proof.
  intros E. pose proof (digitsPrefix_pretty n) as H. rewrite E in H. discriminate H.
Qed.

Lemma route_update_get (isEmail : string -> bool) s id q b :
  id ≠ "" ->
  handle isEmail usersRouter s (Request GET [id; "update"] q b)
  = (Handled (Sent (Render 200 "updateUser"
                      {| vm_title := "Update user"; vm_users := None;
                         vm_user := Some (getUser s (IdString id));
                         vm_errors := None; vm_message := None |})), s).
Proof. intros Hid. by route_cases. Qed.

(** X20: through the router, a valid [POST /create] is answered with the
    redirect and files the record under the counter; a following
    [GET /{id}/update] with the decimal text of that id renders the update
    form with this record, and a following [GET /] lists it. *)
Theorem create_then_show_and_list (isEmail : string -> bool)
    (s : store) (q : option string) (b b' : body) :
  validateUser isEmail b = [] ->
  let record := User (IdNumber (this_id s)) (validatedBody b) in
  let s1 := addUser s (validatedBody b) in
  handle isEmail usersRouter s (Request POST ["create"] q b)
  = (Handled (Sent (Redirect 302 "/")), s1)
  /\ handle isEmail usersRouter s1 (Request GET [pretty (this_id s); "update"] q b')
     = (Handled (Sent (Render 200 "updateUser"
                         {| vm_title := "Update user"; vm_users := None;
                            vm_user := Some (JUser record);
                            vm_errors := None; vm_message := None |})), s1)
  /\ (exists listed,
        handle isEmail usersRouter s1 (Request GET [] q b')
        = (Handled (Sent (Render 200 "index"
                            {| vm_title := "User list"; vm_users := Some listed;
                               vm_user := None; vm_errors := None;
                               vm_message := None |})), s1)
        /\ record ∈ listed).
Proof.
  intros Hv record s1.
  assert (this_storage s1 !! pretty (this_id s) = Some record) as Hstored
    by (unfold s1; rewrite addUser_unfold; simpl; apply lookup_insert_eq).
  split; [|split].
  - cbn. unfold usersCreatePost. by rewrite Hv.
  - assert (getUser s1 (IdString (pretty (this_id s))) = JUser record) as Hget
      by (unfold getUser, readProperty, propertyKey; by rewrite Hstored).
    rewrite route_update_get by apply pretty_N_nonempty. by rewrite Hget.
  - exists (getUsers s1). split; [done|]. apply elem_of_getUsers. eauto.
Qed.

Lemma create_then_show_and_list_witness :
  handle isEmailSample usersRouter sampleStore (Request POST ["create"] None formCarol)
  = (Handled (Sent (Redirect 302 "/")), addUser sampleStore (validatedBody formCarol)).
Proof.
  apply (create_then_show_and_list isEmailSample sampleStore None formCarol formCarol).
  reflexivity.
Defined.
